(** * goncurses: a shallow embedding of ncurses.go

    The Go package is a thin layer over the C curses library.  Its
    tables and the functions the properties below are about are
    embedded here as Rocq definitions, under their Go names; the C
    library itself is not part of the package and appears as a record of
    primitives ([Driver]) over an abstract terminal state, while the
    constants the package takes from <ncurses.h> appear as records of
    integers ([KeyCodes], [AttrBits], [ColorIds], [MouseBits]).

    Go values:
    - [int] and the C integer types are [Z]; conversions write their
      wrap-around out ([C_int], [C_short]);
    - [string] is [string]; [os.Error] is [option string], [None] being
      the nil error;
    - the Go maps are [gmap]s; indexing a Go map at a missing key yields
      the zero value, written [default 0 (m !! k)];
    - a run-time panic is the [Panics] outcome. *)

From Stdlib Require Import ZArith Lia.
From stdpp Require Import base option list gmap strings pretty.

Local Open Scope Z_scope.

(** ** Integer conversions *)

(** Signed wrap-around to [bits] bits: the value of a Go or C conversion
    to a signed integer type of that width. *)
Definition wrap_signed (bits : Z) (z : Z) : Z :=
  (z + 2 ^ (bits - 1)) mod 2 ^ bits - 2 ^ (bits - 1).

(** [C.int(x)]. *)
Definition C_int (z : Z) : Z := wrap_signed 32 z.

(** [C.short(x)], and arithmetic at the type [C.short]. *)
Definition C_short (z : Z) : Z := wrap_signed 16 z.

Definition int32_range (z : Z) : Prop := - 2 ^ 31 <= z < 2 ^ 31.
Definition short_range (z : Z) : Prop := - 2 ^ 15 <= z < 2 ^ 15.
Definition byte_range (z : Z) : Prop := 0 <= z < 256.

(** ** Outcomes of a Go call *)

Inductive outcome (A : Type) : Type :=
| Returns (a : A)
| Panics (msg : string).
Arguments Returns {A} a.
Arguments Panics {A} msg.

Global Instance outcome_ret : MRet outcome := fun _ a => Returns a.
Global Instance outcome_bind : MBind outcome := fun _ _ k o =>
  match o with
  | Returns a => k a
  | Panics msg => Panics msg
  end.

Definition returns {A} (o : outcome A) : Prop := exists a, o = Returns a.

(** ** Values passed through [...interface{}] *)

Inductive value : Type :=
| VNil
| VInt (n : Z)
| VString (s : string)
| VBool (b : bool)
| VByte (b : Z)
| VInt64 (n : Z)
| VAttribute (a : string).

(** [reflect.TypeOf(v)]: nil for the nil interface value. *)
Definition TypeOf (v : value) : option string :=
  match v with
  | VNil => None
  | VInt _ => Some "int"
  | VString _ => Some "string"
  | VBool _ => Some "bool"
  | VByte _ => Some "uint8"
  | VInt64 _ => Some "int64"
  | VAttribute _ => Some "goncurses.Attribute"
  end.

(** [reflect.TypeOf(v).String()]: calling [String] on the nil type is a
    nil dereference. *)
Definition TypeOf_String (v : value) : outcome string :=
  match TypeOf v with
  | Some t => Returns t
  | None => Panics "invalid memory address or nil pointer dereference"
  end.

(** [v.(int)] *)
Definition assert_int (v : value) : outcome Z :=
  match v with
  | VInt n => Returns n
  | _ => Panics "interface conversion: interface is not int"
  end.

(** [v.(string)] *)
Definition assert_string (v : value) : outcome string :=
  match v with
  | VString s => Returns s
  | _ => Panics "interface conversion: interface is not string"
  end.

(** [args[i]] on a slice: out of range is a run-time panic. *)
Definition index {A} (l : list A) (i : nat) : outcome A :=
  match l !! i with
  | Some a => Returns a
  | None => Panics "index out of range"
  end.

(** ** Constants of <ncurses.h> *)

Record KeyCodes : Type := {
  KEY_DOWN : Z; KEY_UP : Z; KEY_LEFT : Z; KEY_RIGHT : Z; KEY_HOME : Z;
  KEY_BACKSPACE : Z; KEY_F0 : Z; KEY_ENTER : Z; KEY_MOUSE : Z
}.

Record AttrBits : Type := {
  A_NORMAL : Z; A_STANDOUT : Z; A_UNDERLINE : Z; A_REVERSE : Z; A_BLINK : Z;
  A_DIM : Z; A_BOLD : Z; A_PROTECT : Z; A_INVIS : Z; A_ALTCHARSET : Z;
  A_CHARTEXT : Z
}.

Record ColorIds : Type := {
  COLOR_BLACK : Z; COLOR_RED : Z; COLOR_GREEN : Z; COLOR_YELLOW : Z;
  COLOR_BLUE : Z; COLOR_MAGENTA : Z; COLOR_CYAN : Z; COLOR_WHITE : Z
}.

Record MouseBits : Type := {
  BUTTON1_PRESSED : Z; BUTTON1_RELEASED : Z; BUTTON1_CLICKED : Z;
  BUTTON1_DOUBLE_CLICKED : Z; BUTTON1_TRIPLE_CLICKED : Z;
  BUTTON2_PRESSED : Z; BUTTON2_RELEASED : Z; BUTTON2_CLICKED : Z;
  BUTTON2_DOUBLE_CLICKED : Z; BUTTON2_TRIPLE_CLICKED : Z;
  BUTTON3_PRESSED : Z; BUTTON3_RELEASED : Z; BUTTON3_CLICKED : Z;
  BUTTON3_DOUBLE_CLICKED : Z; BUTTON3_TRIPLE_CLICKED : Z;
  BUTTON4_PRESSED : Z; BUTTON4_RELEASED : Z; BUTTON4_CLICKED : Z;
  BUTTON4_DOUBLE_CLICKED : Z; BUTTON4_TRIPLE_CLICKED : Z;
  BUTTON_SHIFT : Z; BUTTON_CTRL : Z; BUTTON_ALT : Z;
  ALL_MOUSE_EVENTS : Z; REPORT_MOUSE_POSITION : Z
}.

(** ** The package's tables *)

(** [attrList] *)
Definition attrList (a : AttrBits) : gmap string Z :=
  list_to_map
    [("normal", A_NORMAL a); ("standout", A_STANDOUT a);
     ("underline", A_UNDERLINE a); ("reverse", A_REVERSE a);
     ("blink", A_BLINK a); ("dim", A_DIM a); ("bold", A_BOLD a);
     ("protect", A_PROTECT a); ("invis", A_INVIS a);
     ("altcharset", A_ALTCHARSET a); ("chartext", A_CHARTEXT a)].

(** [colorList] *)
Definition colorList (c : ColorIds) : gmap string Z :=
  list_to_map
    [("black", COLOR_BLACK c); ("red", COLOR_RED c);
     ("green", COLOR_GREEN c); ("yellow", COLOR_YELLOW c);
     ("blue", COLOR_BLUE c); ("magenta", COLOR_MAGENTA c);
     ("cyan", COLOR_CYAN c); ("white", COLOR_WHITE c)].

(** The entries of the [keyList] literal, in source order. *)
Definition keyList_entries (k : KeyCodes) : list (Z * string) :=
  [(9, "tab"); (10, "enter");
   (KEY_DOWN k, "down"); (KEY_UP k, "up"); (KEY_LEFT k, "left");
   (KEY_RIGHT k, "right"); (KEY_HOME k, "home");
   (KEY_BACKSPACE k, "backspace");
   (KEY_F0 k, "F0"); (KEY_F0 k + 1, "F1"); (KEY_F0 k + 2, "F2");
   (KEY_F0 k + 3, "F3"); (KEY_F0 k + 4, "F4"); (KEY_F0 k + 5, "F5");
   (KEY_F0 k + 6, "F6"); (KEY_F0 k + 7, "F7"); (KEY_F0 k + 8, "F8");
   (KEY_F0 k + 9, "F9"); (KEY_F0 k + 10, "F10"); (KEY_F0 k + 11, "F11");
   (KEY_F0 k + 12, "F12");
   (KEY_ENTER k, "enter"); (KEY_MOUSE k, "mouse")].

(** [keyList] *)
Definition keyList (k : KeyCodes) : gmap Z string :=
  list_to_map (keyList_entries k).

(** A Go map literal with two equal constant keys does not compile. *)
Definition keyList_compiles (k : KeyCodes) : Prop :=
  NoDup (keyList_entries k).*1.

(** [mouseEvents] *)
Definition mouseEvents (m : MouseBits) : gmap string Z :=
  list_to_map
    [("button1-pressed", BUTTON1_PRESSED m);
     ("button1-released", BUTTON1_RELEASED m);
     ("button1-clicked", BUTTON1_CLICKED m);
     ("button1-double-clicked", BUTTON1_DOUBLE_CLICKED m);
     ("button1-triple-clicked", BUTTON1_TRIPLE_CLICKED m);
     ("button2-pressed", BUTTON2_PRESSED m);
     ("button2-released", BUTTON2_RELEASED m);
     ("button2-clicked", BUTTON2_CLICKED m);
     ("button2-double-clicked", BUTTON2_DOUBLE_CLICKED m);
     ("button2-triple-clicked", BUTTON2_TRIPLE_CLICKED m);
     ("button3-pressed", BUTTON3_PRESSED m);
     ("button3-released", BUTTON3_RELEASED m);
     ("button3-clicked", BUTTON3_CLICKED m);
     ("button3-double-clicked", BUTTON3_DOUBLE_CLICKED m);
     ("button3-triple-clicked", BUTTON3_TRIPLE_CLICKED m);
     ("button4-pressed", BUTTON4_PRESSED m);
     ("button4-released", BUTTON4_RELEASED m);
     ("button4-clicked", BUTTON4_CLICKED m);
     ("button4-double-clicked", BUTTON4_DOUBLE_CLICKED m);
     ("button4-triple-clicked", BUTTON4_TRIPLE_CLICKED m);
     ("shift", BUTTON_SHIFT m); ("ctrl", BUTTON_CTRL m);
     ("alt", BUTTON_ALT m); ("all", ALL_MOUSE_EVENTS m);
     ("position", REPORT_MOUSE_POSITION m)].

(** ** The curses library

    The C library the package is linked against, over an abstract
    terminal state [term].  A window handle ([*Window], a [WINDOW*]) is
    an address, [0] being the nil pointer; every primitive returns its C
    result together with the next terminal state. *)

Record Driver (term : Type) : Type := {
  ERR : Z;
  chtype_bits : Z;
  COLOR_PAIRS : term -> Z;
  COLOR_PAIR : Z -> Z;
  initscr : term -> Z * term;
  endwin : term -> Z * term;
  init_pair : Z -> Z -> Z -> term -> Z * term;
  mousemask : Z -> Z -> term -> Z * term;
  newwin : Z -> Z -> Z -> Z -> term -> Z * term;
  subwin : Z -> Z -> Z -> Z -> Z -> term -> Z * term;
  delwin : Z -> term -> Z * term;
  waddch : Z -> Z -> term -> Z * term;
  wattron : Z -> Z -> term -> Z * term;
  wattroff : Z -> Z -> term -> Z * term;
  wborder : Z -> list Z -> term -> Z * term;
  box : Z -> Z -> Z -> term -> Z * term;
  wclear : Z -> term -> Z * term;
  wclrtobot : Z -> term -> Z * term;
  wclrtoeol : Z -> term -> Z * term;
  werase : Z -> term -> Z * term;
  wgetch : Z -> term -> Z * term;
  (** [wgetnstr w str n]: the result, and the bytes the library stores
      at [str[0]], [str[1]], ... in that order. *)
  wgetnstr : Z -> Z -> term -> Z * list Z * term;
  mvwhline : Z -> Z -> Z -> Z -> Z -> term -> Z * term;
  keypad : Z -> bool -> term -> Z * term;
  wmove : Z -> Z -> Z -> term -> Z * term;
  waddstr : Z -> string -> term -> Z * term;
  mvwaddstr : Z -> Z -> Z -> string -> term -> Z * term;
  wrefresh : Z -> term -> Z * term;
  wresize : Z -> Z -> Z -> term -> Z * term;
  touchwin : Z -> term -> Z * term
}.
Arguments ERR {term}.
Arguments chtype_bits {term}.
Arguments COLOR_PAIRS {term}.
Arguments COLOR_PAIR {term}.
Arguments initscr {term}.
Arguments endwin {term}.
Arguments init_pair {term}.
Arguments mousemask {term}.
Arguments newwin {term}.
Arguments subwin {term}.
Arguments delwin {term}.
Arguments waddch {term}.
Arguments wattron {term}.
Arguments wattroff {term}.
Arguments wborder {term}.
Arguments box {term}.
Arguments wclear {term}.
Arguments wclrtobot {term}.
Arguments wclrtoeol {term}.
Arguments werase {term}.
Arguments wgetch {term}.
Arguments wgetnstr {term}.
Arguments mvwhline {term}.
Arguments keypad {term}.
Arguments wmove {term}.
Arguments waddstr {term}.
Arguments mvwaddstr {term}.
Arguments wrefresh {term}.
Arguments wresize {term}.
Arguments touchwin {term}.

(** [C.chtype(x)]: conversion to the unsigned type [chtype]. *)
Definition C_chtype {term} (d : Driver term) (z : Z) : Z :=
  z mod 2 ^ chtype_bits d.

(** The part of [struct _win_st] the package reads; the coordinate
    fields have the C type [short]. *)
Record WINDOW : Type := {
  _cury : Z; _curx : Z;
  _maxy : Z; _maxx : Z
}.

(** ** The package's functions *)

Section Package.
Context {term : Type} (d : Driver term).
Context (keys : KeyCodes) (attrs : AttrBits) (colors : ColorIds)
        (mouse : MouseBits).
(** [fmt.Sprintf], of the Go library. *)
Context (Sprintf : string -> list value -> string).

(** [End] *)
Definition End (s : term) : unit * term :=
  let '(_, s) := endwin d s in (tt, s).

(** [InitPair]: [pair] is a [byte]. *)
Definition InitPair (pair : Z) (fg bg : string) (s : term)
  : option string * term :=
  if bool_decide (pair = 0) || (C_int (COLOR_PAIRS d s - 1) <? C_int pair)
  then (Some "Invalid color pair selected", s)
  else
    let fg_color := colorList colors !! fg in
    let bg_color := colorList colors !! bg in
    match fg_color, bg_color with
    | None, _ => (Some "Invalid foreground color", s)
    | Some _, None => (Some "Invalid foreground color", s)
    | Some fg_color, Some bg_color =>
        let '(rc, s) :=
          init_pair d (C_short pair) (C_short fg_color) (C_short bg_color) s in
        if rc =? ERR d then (Some "Failed to init color pair", s)
        else (None, s)
    end.

(** [Init]: the root window and the error. *)
Definition Init (s : term) : Z * option string * term :=
  let '(stdscr, s) := initscr d s in
  let err : option string := None in
  let err :=
    if stdscr =? 0 then Some "An error occurred initializing ncurses"
    else err in
  (stdscr, err, s).

(** [Key] *)
Definition Key (k : Z) : string :=
  match keyList keys !! C_int k with
  | Some key => key
  | None => Sprintf "%c" [VInt k]
  end.

(** The loop of [MouseMask]: the value of [mousemask] after it. *)
Definition MouseMask_loop (masks : list string) : Z :=
  fold_left (fun mousemask mask =>
               Z.lor mousemask (default 0 (mouseEvents mouse !! mask)))
            masks 0.

(** [MouseMask] *)
Definition MouseMask (masks : list string) (s : term) : unit * term :=
  let '(_, s) := mousemask d (MouseMask_loop masks) 0 s in
  (tt, s).

(** [NewWindow] *)
Definition NewWindow (h w y x : Z) (s : term) : Z * option string * term :=
  let '(new, s) := newwin d (C_int h) (C_int w) (C_int y) (C_int x) s in
  if new =? 0 then (new, Some "Failed to create a new window", s)
  else (new, None, s).

(** The loop of [AddChar]: the value of [cattr] after it. *)
Definition AddChar_loop (attributes : list string) : Z :=
  fold_left (fun cattr attr =>
               Z.lor cattr (default 0 (attrList attrs !! attr)))
            attributes 0.

(** [AddChar] *)
Definition AddChar (w : Z) (ch : Z) (attributes : list string) (s : term)
  : unit * term :=
  let cattr := AddChar_loop attributes in
  let '(_, s) := waddch d w (C_chtype d (Z.lor (C_int ch) cattr)) s in
  (tt, s).

(** [Attroff] *)
Definition Attroff (w : Z) (attrstr : string) (s : term)
  : option string * term :=
  let attr := default 0 (attrList attrs !! attrstr) in
  let ok := bool_decide (is_Some (attrList attrs !! attrstr)) in
  let err : option string :=
    if negb ok then Some (Sprintf "Invalid attribute: " [VAttribute attrstr])
    else None in
  let '(rc, s) := wattroff d w attr s in
  let err :=
    if rc =? ERR d
    then Some (Sprintf "Failed to unset attribute: %s" [VAttribute attrstr])
    else err in
  (err, s).

(** [Attron] *)
Definition Attron (w : Z) (attrstr : string) (s : term)
  : option string * term :=
  let attr := default 0 (attrList attrs !! attrstr) in
  let ok := bool_decide (is_Some (attrList attrs !! attrstr)) in
  let err : option string :=
    if negb ok then Some (Sprintf "Invalid attribute: " [VAttribute attrstr])
    else None in
  let '(rc, s) := wattron d w attr s in
  let err :=
    if rc =? ERR d
    then Some (Sprintf "Failed to set attribute: %s" [VAttribute attrstr])
    else err in
  (err, s).

(** [Border] *)
Definition Border (w : Z) (ls rs ts bs tl tr bl br : Z) (s : term)
  : option string * term :=
  let '(res, s) :=
    wborder d w (C_chtype d <$> [ls; rs; ts; bs; tl; tr; bl; br]) s in
  if res =? ERR d then (Some "Failed to draw box around window", s)
  else (None, s).

(** [Box] *)
Definition Box (w : Z) (vch hch : Z) (s : term) : option string * term :=
  let '(rc, s) := box d w (C_chtype d vch) (C_chtype d hch) s in
  if rc =? ERR d then (Some "Failed to draw box around window", s)
  else (None, s).

(** [Clear] *)
Definition Clear (w : Z) (s : term) : option string * term :=
  let '(rc, s) := wclear d w s in
  if rc =? ERR d then (Some "Failed to clear screen", s) else (None, s).

(** [ClearToBottom] *)
Definition ClearToBottom (w : Z) (s : term) : option string * term :=
  let '(rc, s) := wclrtobot d w s in
  if rc =? ERR d then (Some "Failed to clear bottom of window", s)
  else (None, s).

(** [ClearToEOL] *)
Definition ClearToEOL (w : Z) (s : term) : option string * term :=
  let '(rc, s) := wclrtoeol d w s in
  if rc =? ERR d then (Some "Failed to clear to end of line", s)
  else (None, s).

(** [ColorOff]: [pair] is a [byte]. *)
Definition ColorOff (w : Z) (pair : Z) (s : term) : option string * term :=
  let '(rc, s) := wattroff d w (COLOR_PAIR d (C_int pair)) s in
  if rc =? ERR d then (Some "Failed to enable color pair", s) else (None, s).

(** [ColorOn]: [pair] is a [byte]. *)
Definition ColorOn (w : Z) (pair : Z) (s : term) : option string * term :=
  let '(rc, s) := wattron d w (COLOR_PAIR d (C_int pair)) s in
  if rc =? ERR d then (Some "Failed to enable color pair", s) else (None, s).

(** [Delete]: the receiver is passed by value, so the assignment
    [w = nil] changes the method's own copy of the handle only. *)
Definition Delete (w : Z) (s : term) : option string * term :=
  let '(rc, s) := delwin d w s in
  if rc =? ERR d then (Some "Failed to delete window", s)
  else
    let w := 0 in
    (None, s).

(** [DerivedWindow] *)
Definition DerivedWindow (w : Z) (height width y x : Z) (s : term)
  : Z * term :=
  subwin d w (C_int height) (C_int width) (C_int y) (C_int x) s.

(** [Erase] *)
Definition Erase (w : Z) (s : term) : unit * term :=
  let '(_, s) := werase d w s in (tt, s).

(** [GetChar] *)
Definition GetChar (w : Z) (s : term) : Z * option string * term :=
  let '(ch, s) := wgetch d w s in
  if ch =? ERR d
  then (ch, Some "Failed to retrieve character from input stream", s)
  else (ch, None, s).

(** [Maxyx]: [win] is the structure the handle points to; the sum is
    taken at the type of the field. *)
Definition Maxyx (win : WINDOW) : Z * Z :=
  (C_short (_maxy win + 1), C_short (_maxx win + 1)).

(** [Getyx] *)
Definition Getyx (win : WINDOW) : Z * Z :=
  (_cury win, _curx win).

(** [HLine] *)
Definition HLine (w : Z) (y x ch width : Z) (s : term) : unit * term :=
  let '(_, s) :=
    mvwhline d w (C_int y) (C_int x) (C_chtype d ch) (C_int width) s in
  (tt, s).

(** [Keypad] *)
Definition Keypad (w : Z) (keypad_ : bool) (s : term)
  : option string * term :=
  let '(err, s) := keypad d w keypad_ s in
  if err =? ERR d then (Some "Unable to set keypad mode", s) else (None, s).

(** [Move] *)
Definition Move (w : Z) (y x : Z) (s : term) : unit * term :=
  let '(_, s) := wmove d w (C_int y) (C_int x) s in (tt, s).

(** [Refresh] *)
Definition Refresh (w : Z) (s : term) : unit * term :=
  let '(_, s) := wrefresh d w s in (tt, s).

(** [Resize] *)
Definition Resize (w : Z) (height width : Z) (s : term) : unit * term :=
  let '(_, s) := wresize d w (C_int height) (C_int width) s in (tt, s).

(** [SubWindow] *)
Definition SubWindow (w : Z) (height width y x : Z) (s : term) : Z * term :=
  subwin d w (C_int height) (C_int width) (C_int y) (C_int x) s.

(** [Touch] *)
Definition Touch (w : Z) (s : term) : unit * term :=
  let '(_, s) := touchwin d w s in (tt, s).

(** [GetString].  [cstr] is a slice of [n] bytes; the library stores
    through the raw pointer [&cstr[0]], so the bytes it stores at
    offsets [n] and beyond land past the end of the slice.  The result
    carries, besides the values the Go function returns, the final
    contents of [cstr] and the bytes stored past its end.
    [C.GoString] reads the bytes at the pointer up to the first NUL;
    the memory beyond the bytes stored is not part of the model, and a
    read that gets there ends. *)
Record GetString_result : Type := {
  gs_string : string;
  gs_err : option string;
  gs_cstr : list Z;
  gs_past_end : list Z
}.

Fixpoint until_nul (bytes : list Z) : list Z :=
  match bytes with
  | [] => []
  | b :: bytes => if b =? 0 then [] else b :: until_nul bytes
  end.

Definition GoString (bytes : list Z) : string :=
  String.string_of_list_ascii
    ((fun b => Ascii.ascii_of_N (Z.to_N (b mod 256))) <$> until_nul bytes).

Definition GetString (w : Z) (n : Z) (s : term)
  : outcome (GetString_result * term) :=
  if n <? 0 then Panics "makeslice: len out of range"
  else
    let cstr := replicate (Z.to_nat n) 0 in
    _ ← index cstr 0;
    let '(rc, stored, s) := wgetnstr d w (C_int n) s in
    let cstr' :=
      take (Z.to_nat n) stored ++ drop (length stored) cstr in
    let past_end := drop (Z.to_nat n) stored in
    if rc =? ERR d
    then Returns
           ({| gs_string := "";
               gs_err := Some "Failed to retrieve string from input stream";
               gs_cstr := cstr'; gs_past_end := past_end |}, s)
    else Returns
           ({| gs_string := GoString (cstr' ++ past_end);
               gs_err := None;
               gs_cstr := cstr'; gs_past_end := past_end |}, s).

(** [Print] *)
Definition Print (w : Z) (args : list value) (s : term)
  : outcome (unit * term) :=
  let count := 0%nat in
  let y := 0 in
  let x := 0 in
  '(count, y) ←
    (if (1 <? length args)%nat then
       a0 ← index args 0;
       t ← TypeOf_String a0;
       if String.eqb t "int" then
         y ← assert_int a0; mret (count + 1, y)%nat
       else mret (count, y)
     else mret (count, y));
  '(count, x) ←
    (if (2 <? length args)%nat then
       a1 ← index args 1;
       t ← TypeOf_String a1;
       if String.eqb t "int" then
         x ← assert_int a1; mret (count + 1, x)%nat
       else mret (count, x)
     else mret (count, x));
  a ← index args count;
  format ← assert_string a;
  let cstr := Sprintf format (drop (count + 1) args) in
  if (0 <? count)%nat then
    let '(_, s) := mvwaddstr d w (C_int y) (C_int x) cstr s in
    mret (tt, s)
  else
    let '(_, s) := waddstr d w cstr s in
    mret (tt, s).

End Package.

(** ** Windows of the library

    What the library keeps true of the windows it creates: the cursor
    lies within the window, and the numbers of lines and of columns,
    [_maxy + 1] and [_maxx + 1], are values of the fields' type. *)
Definition window_ok (win : WINDOW) : Prop :=
  0 <= _cury win <= _maxy win /\ 0 <= _curx win <= _maxx win /\
  _maxy win + 1 < 2 ^ 15 /\ _maxx win + 1 < 2 ^ 15.

(** ** Operations on a window handle

    The window methods that neither panic nor format text, as one type,
    so that statements can range over them. *)

Inductive wop : Type :=
| OpAddChar (ch : Z) (attributes : list string)
| OpBorder (ls rs ts bs tl tr bl br : Z)
| OpBox (vch hch : Z)
| OpClear
| OpClearToBottom
| OpClearToEOL
| OpColorOff (pair : Z)
| OpColorOn (pair : Z)
| OpDelete
| OpErase
| OpHLine (y x ch width : Z)
| OpKeypad (keypad : bool)
| OpMove (y x : Z)
| OpRefresh
| OpResize (height width : Z)
| OpTouch.

(** The [os.Error] an operation hands back to its caller; a method
    without a result hands back none. *)
Definition run_op {term} (d : Driver term) (attrs : AttrBits)
    (op : wop) (w : Z) (s : term) : option string * term :=
  match op with
  | OpAddChar ch attributes => (None, (AddChar d attrs w ch attributes s).2)
  | OpBorder ls rs ts bs tl tr bl br => Border d w ls rs ts bs tl tr bl br s
  | OpBox vch hch => Box d w vch hch s
  | OpClear => Clear d w s
  | OpClearToBottom => ClearToBottom d w s
  | OpClearToEOL => ClearToEOL d w s
  | OpColorOff p => ColorOff d w p s
  | OpColorOn p => ColorOn d w p s
  | OpDelete => Delete d w s
  | OpErase => (None, (Erase d w s).2)
  | OpHLine y x ch width => (None, (HLine d w y x ch width s).2)
  | OpKeypad keypad_ => Keypad d w keypad_ s
  | OpMove y x => (None, (Move d w y x s).2)
  | OpRefresh => (None, (Refresh d w s).2)
  | OpResize height width => (None, (Resize d w height width s).2)
  | OpTouch => (None, (Touch d w s).2)
  end.

(** The library call an operation makes on the handle. *)
Definition library_call {term} (d : Driver term) (attrs : AttrBits)
    (op : wop) (w : Z) (s : term) : Z * term :=
  match op with
  | OpAddChar ch attributes =>
      waddch d w (C_chtype d (Z.lor (C_int ch) (AddChar_loop attrs attributes))) s
  | OpBorder ls rs ts bs tl tr bl br =>
      wborder d w (C_chtype d <$> [ls; rs; ts; bs; tl; tr; bl; br]) s
  | OpBox vch hch => box d w (C_chtype d vch) (C_chtype d hch) s
  | OpClear => wclear d w s
  | OpClearToBottom => wclrtobot d w s
  | OpClearToEOL => wclrtoeol d w s
  | OpColorOff p => wattroff d w (COLOR_PAIR d (C_int p)) s
  | OpColorOn p => wattron d w (COLOR_PAIR d (C_int p)) s
  | OpDelete => delwin d w s
  | OpErase => werase d w s
  | OpHLine y x ch width =>
      mvwhline d w (C_int y) (C_int x) (C_chtype d ch) (C_int width) s
  | OpKeypad keypad_ => keypad d w keypad_ s
  | OpMove y x => wmove d w (C_int y) (C_int x) s
  | OpRefresh => wrefresh d w s
  | OpResize height width => wresize d w (C_int height) (C_int width) s
  | OpTouch => touchwin d w s
  end.

(** The message of the error an operation returns when its library call
    reports [ERR]; [None] for a method without an [os.Error] result. *)
Definition failure_message (op : wop) : option string :=
  match op with
  | OpBorder _ _ _ _ _ _ _ _ | OpBox _ _ =>
      Some "Failed to draw box around window"
  | OpClear => Some "Failed to clear screen"
  | OpClearToBottom => Some "Failed to clear bottom of window"
  | OpClearToEOL => Some "Failed to clear to end of line"
  | OpColorOff _ | OpColorOn _ => Some "Failed to enable color pair"
  | OpDelete => Some "Failed to delete window"
  | OpKeypad _ => Some "Unable to set keypad mode"
  | OpAddChar _ _ | OpErase | OpHLine _ _ _ _ | OpMove _ _ | OpRefresh
  | OpResize _ _ | OpTouch => None
  end.

(** ** The specification's wording, for comparison with the code *)

(** Specification, section 4.1: [compose(names...)] yields the union of
    the named flags and fails with [UnknownAttribute] if any name is
    unrecognized. *)
Inductive compose_result : Type :=
| Mask (bits : Z)
| UnknownAttribute.

Definition compose_spec (attrs : AttrBits) (names : list string)
  : compose_result :=
  if forallb (fun name => bool_decide (is_Some (attrList attrs !! name))) names
  then Mask (foldr Z.lor 0 (omap (fun name => attrList attrs !! name) names))
  else UnknownAttribute.

(** Specification, sections 3 and 4.1, of [AddChar]: the mask the
    method composes from its attribute names is the one [compose]
    yields, a failure included. *)
Definition AddChar_composes_as_specified (attrs : AttrBits) : Prop :=
  forall names, Mask (AddChar_loop attrs names) = compose_spec attrs names.

(** Specification, sections 3 and 4.6: [init] fails if a session
    already exists. *)
Definition single_session {term} (d : Driver term) : Prop :=
  forall s stdscr s1, Init d s = (stdscr, None, s1) ->
    forall stdscr' err s2, Init d s1 = (stdscr', err, s2) -> is_Some err.

(** ** A concrete library, to run the package on

    The values <ncurses.h> gives the constants, and a small terminal
    that behaves as the curses manual describes the calls: it is used to
    evaluate the package's functions on concrete inputs. *)

Definition ncurses_keys : KeyCodes :=
  {| KEY_DOWN := 258; KEY_UP := 259; KEY_LEFT := 260; KEY_RIGHT := 261;
     KEY_HOME := 262; KEY_BACKSPACE := 263; KEY_F0 := 264;
     KEY_ENTER := 343; KEY_MOUSE := 409 |}.

Definition ncurses_attrs : AttrBits :=
  {| A_NORMAL := 0; A_STANDOUT := Z.shiftl 1 16; A_UNDERLINE := Z.shiftl 1 17;
     A_REVERSE := Z.shiftl 1 18; A_BLINK := Z.shiftl 1 19;
     A_DIM := Z.shiftl 1 20; A_BOLD := Z.shiftl 1 21;
     A_PROTECT := Z.shiftl 1 24; A_INVIS := Z.shiftl 1 23;
     A_ALTCHARSET := Z.shiftl 1 22; A_CHARTEXT := 255 |}.

Definition ncurses_colors : ColorIds :=
  {| COLOR_BLACK := 0; COLOR_RED := 1; COLOR_GREEN := 2; COLOR_YELLOW := 3;
     COLOR_BLUE := 4; COLOR_MAGENTA := 5; COLOR_CYAN := 6; COLOR_WHITE := 7 |}.

(** The state of the terminal: the addresses of the live windows, the
    characters typed and not yet read, and the value of [COLOR_PAIRS]. *)
Record screen : Type := {
  windows : list Z;
  queue : list Z;
  color_pairs : Z
}.

Definition live (w : Z) (s : screen) : bool := bool_decide (w ∈ windows s).

(** A call on a window: [OK] on a live window, [ERR] otherwise. *)
Definition on_window (w : Z) (s : screen) : Z * screen :=
  (if live w s then 0 else -1, s).

Definition add_window (w : Z) (s : screen) : screen :=
  {| windows := w :: windows s; queue := queue s;
     color_pairs := color_pairs s |}.

Definition fresh_address (s : screen) : Z := 1 + foldr Z.max 0 (windows s).

Definition create_window (s : screen) : Z * screen :=
  let w := fresh_address s in (w, add_window w s).

(** [initscr] returns [stdscr], at address [1], on every call. *)
Definition curses_initscr (s : screen) : Z * screen :=
  (1, if live 1 s then s else add_window 1 s).

Definition curses_delwin (w : Z) (s : screen) : Z * screen :=
  if live w s
  then (0, {| windows := filter (fun w' => w' <> w) (windows s);
              queue := queue s; color_pairs := color_pairs s |})
  else (-1, s).

Definition curses_wgetch (w : Z) (s : screen) : Z * screen :=
  match queue s with
  | [] => (-1, s)
  | ch :: rest =>
      (ch, {| windows := windows s; queue := rest;
              color_pairs := color_pairs s |})
  end.

(** The loop of [wgetnstr]: characters are read up to a newline or a
    carriage return; the first [room] of them are stored, the others are
    answered with a beep and dropped.  The result is the characters
    stored, the input left, and the call's result ([ERR] when the input
    ends before the line does). *)
Fixpoint getnstr_loop (input : list Z) (room : nat) : list Z * list Z * Z :=
  match input with
  | [] => ([], [], -1)
  | ch :: input =>
      if (ch =? 10) || (ch =? 13) then ([], input, 0)
      else
        match room with
        | O => getnstr_loop input O
        | S room =>
            let '(stored, rest, rc) := getnstr_loop input room in
            (ch :: stored, rest, rc)
        end
  end.

(** [wgetnstr w str n] stores at most [n] characters, followed by a
    terminating NUL, at [str]. *)
Definition curses_wgetnstr (w : Z) (n : Z) (s : screen)
  : Z * list Z * screen :=
  if live w s then
    let '(stored, rest, rc) := getnstr_loop (queue s) (Z.to_nat n) in
    (rc, stored ++ [0],
     {| windows := windows s; queue := rest; color_pairs := color_pairs s |})
  else (-1, [], s).

Definition curses_init_pair (p f b : Z) (s : screen) : Z * screen :=
  (if bool_decide (0 < p < color_pairs s) then 0 else -1, s).

Definition curses : Driver screen :=
  {| ERR := -1;
     chtype_bits := 32;
     COLOR_PAIRS := color_pairs;
     COLOR_PAIR := fun n => Z.shiftl n 8;
     initscr := curses_initscr;
     endwin := fun s => (0, s);
     init_pair := curses_init_pair;
     mousemask := fun newmask _ s => (newmask, s);
     newwin := fun _ _ _ _ => create_window;
     subwin := fun orig _ _ _ _ s =>
                 if live orig s then create_window s else (0, s);
     delwin := curses_delwin;
     waddch := fun w _ => on_window w;
     wattron := fun w _ => on_window w;
     wattroff := fun w _ => on_window w;
     wborder := fun w _ => on_window w;
     box := fun w _ _ => on_window w;
     wclear := on_window;
     wclrtobot := on_window;
     wclrtoeol := on_window;
     werase := on_window;
     wgetch := curses_wgetch;
     wgetnstr := curses_wgetnstr;
     mvwhline := fun w _ _ _ _ => on_window w;
     keypad := fun w _ => on_window w;
     wmove := fun w _ _ => on_window w;
     waddstr := fun w _ => on_window w;
     mvwaddstr := fun w _ _ _ => on_window w;
     wrefresh := on_window;
     wresize := fun w _ _ => on_window w;
     touchwin := on_window |}.

(** A terminal with no window yet, [input] typed ahead and 64 colour
    pairs. *)
Definition fresh_screen (input : list Z) : screen :=
  {| windows := []; queue := input; color_pairs := 64 |}.

(** The characters of a string, as typed. *)
Definition typed (text : string) : list Z :=
  (fun c => Z.of_N (Ascii.N_of_ascii c)) <$> String.list_ascii_of_string text.

(** A formatting function to put where a closed term needs one: it
    leaves the verbs of the format unexpanded.  The properties below
    are proved for every formatting function. *)
Definition Sprintf_verbatim (format : string) (args : list value) : string :=
  format.

(** ** More of the package

    The functions below call library primitives that [Driver] does not
    list: [Curses] adds them to it. *)

Record Curses (term : Type) : Type := {
  driver :> Driver term;
  halfdelay : Z -> term -> Z * term;
  init_color : Z -> Z -> Z -> Z -> term -> Z * term;
  wbkgd : Z -> Z -> term -> Z * term;
  wsyncdown : Z -> term -> term;
  wcursyncup : Z -> term -> term;
  wsyncup : Z -> term -> term
}.
Arguments driver {term}.
Arguments halfdelay {term}.
Arguments init_color {term}.
Arguments wbkgd {term}.
Arguments wsyncdown {term}.
Arguments wcursyncup {term}.
Arguments wsyncup {term}.

(** The constants [SYNC_NONE], [SYNC_CURSOR], [SYNC_DOWN] and [SYNC_UP],
    numbered by [iota]. *)
Definition SYNC_NONE : Z := 0.
Definition SYNC_CURSOR : Z := 1.
Definition SYNC_DOWN : Z := 2.
Definition SYNC_UP : Z := 3.

Section MorePackage.
Context {term : Type} (l : Curses term).
Context (attrs : AttrBits) (colors : ColorIds).

(** [HalfDelay] *)
Definition HalfDelay (delay : Z) (s : term) : option string * term :=
  let cerr := 0 in
  let '(cerr, s) :=
    if 0 <? delay then halfdelay l (C_int delay) s else (cerr, s) in
  if cerr =? ERR l then (Some "Unable to set echo mode", s) else (None, s).

(** [InitColor] *)
Definition InitColor (color : string) (r g b : Z) (s : term)
  : option string * term :=
  match colorList colors !! color with
  | None => (Some "Failed to set new color definition", s)
  | Some col =>
      let '(rc, s) :=
        init_color l (C_short col) (C_short r) (C_short g) (C_short b) s in
      if rc =? ERR l then (Some "Failed to set new color definition", s)
      else (None, s)
  end.

(** One turn of the loop of [Background], on the argument [ch]: the
    next value of [nattr]. *)
Definition Background_step (nattr : Z) (ch : value) : outcome Z :=
  t ← TypeOf_String ch;
  if String.eqb t "byte" then mret nattr
  else if String.eqb t "int" then
    n ← assert_int ch;
    mret (Z.lor nattr (C_chtype l (COLOR_PAIR l (C_int n))))
  else if String.eqb t "string" then
    name ← assert_string ch;
    match attrList attrs !! name with
    | Some attr => mret (Z.lor nattr (C_chtype l attr))
    | None => mret nattr
    end
  else mret nattr.

(** The loop of [Background]: the value of [nattr] after it. *)
Fixpoint Background_loop (args : list value) (nattr : Z) : outcome Z :=
  match args with
  | [] => mret nattr
  | ch :: args =>
      nattr ← Background_step nattr ch;
      Background_loop args nattr
  end.

(** [Background] *)
Definition Background (w : Z) (args : list value) (s : term)
  : outcome (unit * term) :=
  nattr ← Background_loop args 0;
  let '(_, s) := wbkgd l w nattr s in
  mret (tt, s).

(** [Sync] *)
Definition Sync (w : Z) (sync : Z) (s : term) : unit * term :=
  if sync =? SYNC_DOWN then (tt, wsyncdown l w s)
  else if sync =? SYNC_CURSOR then (tt, wcursyncup l w s)
  else if sync =? SYNC_UP then (tt, wsyncup l w s)
  else (tt, s).

End MorePackage.

(** The argument lists on which [Print] finds its format string: a
    format; a format and one more argument; a format followed by an
    argument that is neither an [int] nor nil, and more; one integer
    and a format; two integers and a format. *)
Definition is_int (v : value) : bool :=
  match v with VInt _ => true | _ => false end.

Definition is_string (v : value) : bool :=
  match v with VString _ => true | _ => false end.

Definition is_nil (v : value) : bool :=
  match v with VNil => true | _ => false end.

Definition Print_accepts (args : list value) : bool :=
  match args with
  | [] => false
  | [a] => is_string a
  | [a; b] => is_string a || (is_int a && is_string b)
  | a :: b :: c :: _ =>
      (is_string a && negb (is_int b) && negb (is_nil b))
      || (is_int a && is_string b)
      || (is_int a && is_int b && is_string c)
  end.

(** The arguments of [Background] that can add to the mask: the
    integers, and the strings that name an attribute. *)
Definition Background_counts (attrs : AttrBits) (v : value) : bool :=
  match v with
  | VInt _ => true
  | VString name => bool_decide (is_Some (attrList attrs !! name))
  | _ => false
  end.

(** The bytes of a string, as [C.GoString] yields them. *)
Definition string_of_bytes (bytes : list Z) : string :=
  String.string_of_list_ascii
    ((fun b => Ascii.ascii_of_N (Z.to_N (b mod 256))) <$> bytes).

(** The library above, with the primitives [Curses] adds: [halfdelay]
    takes tenths of a second from 1 to 255, and [init_color] a colour
    below 8 and components from 0 to 1000. *)
Definition curses_more : Curses screen :=
  {| driver := curses;
     halfdelay := fun tenths s =>
       (if bool_decide (1 <= tenths <= 255) then 0 else -1, s);
     init_color := fun col r g b s =>
       (if bool_decide (0 <= col < 8 /\ 0 <= r <= 1000 /\
                        0 <= g <= 1000 /\ 0 <= b <= 1000)
        then 0 else -1, s);
     wbkgd := fun w _ => on_window w;
     wsyncdown := fun _ s => s;
     wcursyncup := fun _ s => s;
     wsyncup := fun _ s => s |}.

(** ** Library calls that may not return

    In C, a call on the address of a window that [delwin] has freed is
    undefined: it may report a result, or end the program in the
    library.  The window operations of [wop] are embedded here a second
    time, over library primitives that may not return: [None] is the
    run that ends in the library, and an operation whose library call
    does not return does not return either. *)

Module Unsafe.

Record Driver (term : Type) : Type := {
  ERR : Z;
  chtype_bits : Z;
  COLOR_PAIR : Z -> Z;
  subwin : Z -> Z -> Z -> Z -> Z -> term -> option (Z * term);
  delwin : Z -> term -> option (Z * term);
  waddch : Z -> Z -> term -> option (Z * term);
  wattron : Z -> Z -> term -> option (Z * term);
  wattroff : Z -> Z -> term -> option (Z * term);
  wborder : Z -> list Z -> term -> option (Z * term);
  box : Z -> Z -> Z -> term -> option (Z * term);
  wclear : Z -> term -> option (Z * term);
  wclrtobot : Z -> term -> option (Z * term);
  wclrtoeol : Z -> term -> option (Z * term);
  werase : Z -> term -> option (Z * term);
  mvwhline : Z -> Z -> Z -> Z -> Z -> term -> option (Z * term);
  keypad : Z -> bool -> term -> option (Z * term);
  wmove : Z -> Z -> Z -> term -> option (Z * term);
  wrefresh : Z -> term -> option (Z * term);
  wresize : Z -> Z -> Z -> term -> option (Z * term);
  touchwin : Z -> term -> option (Z * term)
}.
Arguments ERR {term}.
Arguments chtype_bits {term}.
Arguments COLOR_PAIR {term}.
Arguments subwin {term}.
Arguments delwin {term}.
Arguments waddch {term}.
Arguments wattron {term}.
Arguments wattroff {term}.
Arguments wborder {term}.
Arguments box {term}.
Arguments wclear {term}.
Arguments wclrtobot {term}.
Arguments wclrtoeol {term}.
Arguments werase {term}.
Arguments mvwhline {term}.
Arguments keypad {term}.
Arguments wmove {term}.
Arguments wrefresh {term}.
Arguments wresize {term}.
Arguments touchwin {term}.

Section Methods.
Context {term : Type} (d : Driver term) (attrs : AttrBits).

(** [C.chtype(x)] *)
Definition C_chtype (z : Z) : Z := z mod 2 ^ chtype_bits d.

(** [AddChar] *)
Definition AddChar (w : Z) (ch : Z) (attributes : list string) (s : term)
  : option (unit * term) :=
  let cattr := AddChar_loop attrs attributes in
  '(_, s) ← waddch d w (C_chtype (Z.lor (C_int ch) cattr)) s;
  Some (tt, s).

(** [Border] *)
Definition Border (w : Z) (ls rs ts bs tl tr bl br : Z) (s : term)
  : option (option string * term) :=
  '(res, s) ← wborder d w (C_chtype <$> [ls; rs; ts; bs; tl; tr; bl; br]) s;
  if res =? ERR d then Some (Some "Failed to draw box around window", s)
  else Some (None, s).

(** [Box] *)
Definition Box (w : Z) (vch hch : Z) (s : term)
  : option (option string * term) :=
  '(rc, s) ← box d w (C_chtype vch) (C_chtype hch) s;
  if rc =? ERR d then Some (Some "Failed to draw box around window", s)
  else Some (None, s).

(** [Clear] *)
Definition Clear (w : Z) (s : term) : option (option string * term) :=
  '(rc, s) ← wclear d w s;
  if rc =? ERR d then Some (Some "Failed to clear screen", s)
  else Some (None, s).

(** [ClearToBottom] *)
Definition ClearToBottom (w : Z) (s : term)
  : option (option string * term) :=
  '(rc, s) ← wclrtobot d w s;
  if rc =? ERR d then Some (Some "Failed to clear bottom of window", s)
  else Some (None, s).

(** [ClearToEOL] *)
Definition ClearToEOL (w : Z) (s : term) : option (option string * term) :=
  '(rc, s) ← wclrtoeol d w s;
  if rc =? ERR d then Some (Some "Failed to clear to end of line", s)
  else Some (None, s).

(** [ColorOff] *)
Definition ColorOff (w : Z) (p : Z) (s : term)
  : option (option string * term) :=
  '(rc, s) ← wattroff d w (COLOR_PAIR d (C_int p)) s;
  if rc =? ERR d then Some (Some "Failed to enable color pair", s)
  else Some (None, s).

(** [ColorOn] *)
Definition ColorOn (w : Z) (p : Z) (s : term)
  : option (option string * term) :=
  '(rc, s) ← wattron d w (COLOR_PAIR d (C_int p)) s;
  if rc =? ERR d then Some (Some "Failed to enable color pair", s)
  else Some (None, s).

(** [Delete]: the assignment [w = nil] changes the method's own copy
    of the handle only. *)
Definition Delete (w : Z) (s : term) : option (option string * term) :=
  '(rc, s) ← delwin d w s;
  if rc =? ERR d then Some (Some "Failed to delete window", s)
  else
    let w := 0 in
    Some (None, s).

(** [Erase] *)
Definition Erase (w : Z) (s : term) : option (unit * term) :=
  '(_, s) ← werase d w s; Some (tt, s).

(** [HLine] *)
Definition HLine (w : Z) (y x ch width : Z) (s : term)
  : option (unit * term) :=
  '(_, s) ← mvwhline d w (C_int y) (C_int x) (C_chtype ch) (C_int width) s;
  Some (tt, s).

(** [Keypad] *)
Definition Keypad (w : Z) (keypad_ : bool) (s : term)
  : option (option string * term) :=
  '(err, s) ← keypad d w keypad_ s;
  if err =? ERR d then Some (Some "Unable to set keypad mode", s)
  else Some (None, s).

(** [Move] *)
Definition Move (w : Z) (y x : Z) (s : term) : option (unit * term) :=
  '(_, s) ← wmove d w (C_int y) (C_int x) s; Some (tt, s).

(** [Refresh] *)
Definition Refresh (w : Z) (s : term) : option (unit * term) :=
  '(_, s) ← wrefresh d w s; Some (tt, s).

(** [Resize] *)
Definition Resize (w : Z) (height width : Z) (s : term)
  : option (unit * term) :=
  '(_, s) ← wresize d w (C_int height) (C_int width) s; Some (tt, s).

(** [SubWindow] *)
Definition SubWindow (w : Z) (height width y x : Z) (s : term)
  : option (Z * term) :=
  subwin d w (C_int height) (C_int width) (C_int y) (C_int x) s.

(** [Touch] *)
Definition Touch (w : Z) (s : term) : option (unit * term) :=
  '(_, s) ← touchwin d w s; Some (tt, s).

(** What an operation hands back to its caller when it returns: its
    [os.Error], none for a method without a result. *)
Definition no_result (r : option (unit * term))
  : option (option string * term) :=
  '(_, s) ← r; Some (None, s).

Definition run_op (op : wop) (w : Z) (s : term)
  : option (option string * term) :=
  match op with
  | OpAddChar ch attributes => no_result (AddChar w ch attributes s)
  | OpBorder ls rs ts bs tl tr bl br => Border w ls rs ts bs tl tr bl br s
  | OpBox vch hch => Box w vch hch s
  | OpClear => Clear w s
  | OpClearToBottom => ClearToBottom w s
  | OpClearToEOL => ClearToEOL w s
  | OpColorOff p => ColorOff w p s
  | OpColorOn p => ColorOn w p s
  | OpDelete => Delete w s
  | OpErase => no_result (Erase w s)
  | OpHLine y x ch width => no_result (HLine w y x ch width s)
  | OpKeypad keypad_ => Keypad w keypad_ s
  | OpMove y x => no_result (Move w y x s)
  | OpRefresh => no_result (Refresh w s)
  | OpResize height width => no_result (Resize w height width s)
  | OpTouch => no_result (Touch w s)
  end.

(** The library call an operation makes on the handle. *)
Definition library_call (op : wop) (w : Z) (s : term) : option (Z * term) :=
  match op with
  | OpAddChar ch attributes =>
      waddch d w (C_chtype (Z.lor (C_int ch) (AddChar_loop attrs attributes))) s
  | OpBorder ls rs ts bs tl tr bl br =>
      wborder d w (C_chtype <$> [ls; rs; ts; bs; tl; tr; bl; br]) s
  | OpBox vch hch => box d w (C_chtype vch) (C_chtype hch) s
  | OpClear => wclear d w s
  | OpClearToBottom => wclrtobot d w s
  | OpClearToEOL => wclrtoeol d w s
  | OpColorOff p => wattroff d w (COLOR_PAIR d (C_int p)) s
  | OpColorOn p => wattron d w (COLOR_PAIR d (C_int p)) s
  | OpDelete => delwin d w s
  | OpErase => werase d w s
  | OpHLine y x ch width =>
      mvwhline d w (C_int y) (C_int x) (C_chtype ch) (C_int width) s
  | OpKeypad keypad_ => keypad d w keypad_ s
  | OpMove y x => wmove d w (C_int y) (C_int x) s
  | OpRefresh => wrefresh d w s
  | OpResize height width => wresize d w (C_int height) (C_int width) s
  | OpTouch => touchwin d w s
  end.


End Methods.

End Unsafe.

(** A library whose every call returns is a library whose calls may not
    return. *)
Definition always_returns {term} (d : Driver term) : Unsafe.Driver term :=
  {| Unsafe.ERR := ERR d;
     Unsafe.chtype_bits := chtype_bits d;
     Unsafe.COLOR_PAIR := COLOR_PAIR d;
     Unsafe.subwin := fun orig h w y x s => Some (subwin d orig h w y x s);
     Unsafe.delwin := fun w s => Some (delwin d w s);
     Unsafe.waddch := fun w ch s => Some (waddch d w ch s);
     Unsafe.wattron := fun w a s => Some (wattron d w a s);
     Unsafe.wattroff := fun w a s => Some (wattroff d w a s);
     Unsafe.wborder := fun w chs s => Some (wborder d w chs s);
     Unsafe.box := fun w v h s => Some (box d w v h s);
     Unsafe.wclear := fun w s => Some (wclear d w s);
     Unsafe.wclrtobot := fun w s => Some (wclrtobot d w s);
     Unsafe.wclrtoeol := fun w s => Some (wclrtoeol d w s);
     Unsafe.werase := fun w s => Some (werase d w s);
     Unsafe.mvwhline := fun w y x ch n s => Some (mvwhline d w y x ch n s);
     Unsafe.keypad := fun w b s => Some (keypad d w b s);
     Unsafe.wmove := fun w y x s => Some (wmove d w y x s);
     Unsafe.wrefresh := fun w s => Some (wrefresh d w s);
     Unsafe.wresize := fun w h wd s => Some (wresize d w h wd s);
     Unsafe.touchwin := fun w s => Some (touchwin d w s) |}.




(** * Properties *)

(** ** Conversions *)

Lemma C_int_id (z : Z) : int32_range z -> C_int z = z.
Proof.
  unfold int32_range, C_int, wrap_signed. intros H.
  rewrite Z.mod_small; lia.
Qed.

Lemma C_short_id (z : Z) : short_range z -> C_short z = z.
Proof.
  unfold short_range, C_short, wrap_signed. intros H.
  rewrite Z.mod_small; lia.
Qed.

(** ** Masks built by a loop of [|=] over a table

    [AddChar] and [MouseMask] run the same loop, each over a table of
    its own. *)

Section MaskLoop.
Variable table : gmap string Z.

Let loop (names : list string) (acc : Z) : Z :=
  fold_left (fun acc name => Z.lor acc (default 0 (table !! name))) names acc.

Lemma loop_step name names acc :
  loop (name :: names) acc =
    loop names (Z.lor acc (default 0 (table !! name))).
Proof. reflexivity. Qed.

Lemma loop_acc names acc : loop names acc = Z.lor acc (loop names 0).
Proof.
  revert acc. induction names as [|name names IH]; intros acc.
  - cbn. now rewrite Z.lor_0_r.
  - rewrite !loop_step, IH, (IH (Z.lor 0 _)).
    now rewrite Z.lor_0_l, Z.lor_assoc.
Qed.

Lemma loop_cons name names :
  loop (name :: names) 0 = Z.lor (default 0 (table !! name)) (loop names 0).
Proof. rewrite loop_step, loop_acc. now rewrite Z.lor_0_l. Qed.

Lemma loop_testbit names i :
  Z.testbit (loop names 0) i = true <->
  exists name bits,
    name ∈ names /\ table !! name = Some bits /\ Z.testbit bits i = true.
Proof.
  induction names as [|name names IH].
  - simpl. rewrite Z.bits_0. split; [discriminate|].
    intros (name & bits & Hin & _). inversion Hin.
  - rewrite loop_cons, Z.lor_spec, orb_true_iff, IH. split.
    + intros [Hhere | (name' & bits & Hin & Hlook & Hbit)].
      * destruct (table !! name) as [bits|] eqn:Hlook; simpl in Hhere.
        -- exists name, bits. split; [left | easy].
        -- rewrite Z.bits_0 in Hhere. discriminate.
      * exists name', bits. split; [now right | easy].
    + intros (name' & bits & Hin & Hlook & Hbit).
      apply elem_of_cons in Hin as [-> | Hin].
      * left. now rewrite Hlook.
      * right. now exists name', bits.
Qed.

Lemma loop_filter names :
  loop names 0 = loop (filter (fun name => is_Some (table !! name)) names) 0.
Proof.
  induction names as [|name names IH]; [reflexivity|].
  rewrite filter_cons. destruct (decide (is_Some (table !! name))) as [Hk|Hk].
  - now rewrite !loop_cons, IH.
  - rewrite loop_cons, IH.
    apply eq_None_not_Some in Hk. now rewrite Hk.
Qed.

Lemma loop_unknown names :
  Forall (fun name => table !! name = None) names -> loop names 0 = 0.
Proof.
  induction 1 as [|name names Hname _ IH]; [reflexivity|].
  now rewrite loop_cons, Hname, IH.
Qed.

Lemma loop_foldr names :
  loop names 0 = foldr Z.lor 0 (omap (fun name => table !! name) names).
Proof.
  induction names as [|name names IH]; [reflexivity|].
  rewrite loop_cons, IH. cbn.
  destruct (table !! name); [reflexivity | apply Z.lor_0_l].
Qed.

Lemma known_filter names :
  forallb (fun name => bool_decide (is_Some (table !! name)))
    (filter (fun name => is_Some (table !! name)) names) = true.
Proof.
  induction names as [|name names IH]; [reflexivity|].
  rewrite filter_cons. destruct (decide (is_Some (table !! name))) as [Hk|Hk].
  - cbn. now rewrite bool_decide_eq_true_2, IH.
  - exact IH.
Qed.

End MaskLoop.

(** ** Mouse masks *)

(** C6.  [MouseMask] computes the bitwise union of the bit patterns of
    the recognized names: a bit is set in the mask exactly when it is
    set in the pattern of some recognized name of the list.  The names
    the table does not hold contribute nothing, the call has no error
    to report, and a list of unrecognized names only gives the zero
    mask; the mask is what the library's [mousemask] receives. *)
Theorem MouseMask_is_union_of_recognized :
  forall (mouse : MouseBits) (masks : list string),
    (forall i, Z.testbit (MouseMask_loop mouse masks) i = true <->
       exists name bits,
         name ∈ masks /\ mouseEvents mouse !! name = Some bits /\
         Z.testbit bits i = true) /\
    MouseMask_loop mouse masks =
      MouseMask_loop mouse
        (filter (fun name => is_Some (mouseEvents mouse !! name)) masks) /\
    (Forall (fun name => mouseEvents mouse !! name = None) masks ->
       MouseMask_loop mouse masks = 0) /\
    MouseMask_loop mouse ["nonexistent-event"] = 0 /\
    (forall term (d : Driver term) (s : term),
       MouseMask d mouse masks s =
         (tt, (mousemask d (MouseMask_loop mouse masks) 0 s).2)).
Proof.
  intros mouse masks. unfold MouseMask_loop.
  split; [|split; [|split; [|split]]].
  - intros i. apply loop_testbit.
  - apply loop_filter.
  - apply loop_unknown.
  - reflexivity.
  - intros term d s. unfold MouseMask, MouseMask_loop.
    now destruct (mousemask d _ 0 s).
Qed.

(** ** Key names *)

Lemma keyList_lookup (keys : KeyCodes) (k : Z) (name : string) :
  keyList_compiles keys -> (k, name) ∈ keyList_entries keys ->
  keyList keys !! k = Some name.
Proof. intros Hnodup Hin. now apply elem_of_list_to_map_1. Qed.

(** C7.  With the key table a well-formed map literal (no key twice)
    and the function-key codes C [int]s: for every [n] from 0 to 12,
    [Key (KEY_F0 + n)] is the letter F followed by [n] in decimal; and
    for every code the table does not hold, [Key] is the code formatted
    with the verb [%c], that is, rendered as a character.  The table is
    consulted at [C.int(k)], which is [k] itself for every code in the
    range of a C [int] (the range of Go's [int] when the package was
    written, and of every code the library's [wgetch] returns). *)
Theorem Key_function_keys_and_fallback :
  forall (keys : KeyCodes) (Sprintf : string -> list value -> string),
    keyList_compiles keys ->
    int32_range (KEY_F0 keys) -> int32_range (KEY_F0 keys + 12) ->
    (forall n, 0 <= n <= 12 ->
       Key keys Sprintf (KEY_F0 keys + n) = "F" +:+ pretty n) /\
    (forall k, keyList keys !! C_int k = None ->
       Key keys Sprintf k = Sprintf "%c" [VInt k]) /\
    (forall k, int32_range k -> keyList keys !! k = None ->
       Key keys Sprintf k = Sprintf "%c" [VInt k]).
Proof.
  intros keys Sprintf Hnodup Hlo Hhi. split; [|split].
  - intros n Hn. unfold Key.
    rewrite C_int_id by (unfold int32_range in *; lia).
    assert (Hzero : KEY_F0 keys + 0 = KEY_F0 keys) by lia.
    rewrite <- (Z2Nat.id n) by lia.
    assert (Hm : (Z.to_nat n <= 12)%nat) by lia.
    generalize dependent (Z.to_nat n). clear Hn. intros m Hm.
    do 13 (destruct m as [|m];
           [ lazymatch goal with
             | |- context [Z.of_nat ?k] =>
                 let z := eval vm_compute in (Z.of_nat k) in
                 change (Z.of_nat k) with z
             end;
             rewrite ?Hzero;
             (erewrite keyList_lookup; [reflexivity | assumption |]);
             unfold keyList_entries;
             repeat first [apply list_elem_of_here | apply list_elem_of_further]
           | ]).
    lia.
  - intros k Hk. unfold Key. now rewrite Hk.
  - intros k Hrange Hk. unfold Key. now rewrite C_int_id, Hk.
Qed.

Lemma Key_function_keys_witness :
  Key ncurses_keys Sprintf_verbatim (KEY_F0 ncurses_keys + 12) = "F12" /\
  Key ncurses_keys Sprintf_verbatim 65 = Sprintf_verbatim "%c" [VInt 65].
Proof.
  assert (Hnodup : keyList_compiles ncurses_keys).
  { unfold keyList_compiles. apply (bool_decide_unpack _). vm_compute. exact I. }
  assert (Hlo : int32_range (KEY_F0 ncurses_keys)).
  { unfold int32_range. simpl. lia. }
  assert (Hhi : int32_range (KEY_F0 ncurses_keys + 12)).
  { unfold int32_range. simpl. lia. }
  destruct (Key_function_keys_and_fallback ncurses_keys Sprintf_verbatim
              Hnodup Hlo Hhi) as (Hfn & _ & Hmiss).
  split.
  - apply (Hfn 12). lia.
  - apply Hmiss; [unfold int32_range; lia | reflexivity].
Defined.

(** ** Colour pairs *)

(** C5.  For a pair number [pair] (a byte) and a [COLOR_PAIRS] that is
    a C [int] above the least one: [InitPair] returns the error
    "Invalid color pair selected" when [pair] is 0 or at least
    [COLOR_PAIRS]; for a pair number in range it returns the error
    "Invalid foreground color" when [fg] or [bg] is not a colour name of
    the table; and whatever the pair number, an unrecognized colour name
    makes the call fail.  In each case the terminal is left as it was. *)
Theorem InitPair_rejects_bad_pair_and_unknown_color :
  forall term (d : Driver term) (colors : ColorIds)
         (pair : Z) (fg bg : string) (s : term),
    byte_range pair ->
    - 2 ^ 31 < COLOR_PAIRS d s < 2 ^ 31 ->
    (pair = 0 \/ COLOR_PAIRS d s <= pair ->
       InitPair d colors pair fg bg s =
         (Some "Invalid color pair selected", s)) /\
    (pair <> 0 -> pair < COLOR_PAIRS d s ->
     colorList colors !! fg = None \/ colorList colors !! bg = None ->
       InitPair d colors pair fg bg s =
         (Some "Invalid foreground color", s)) /\
    (colorList colors !! fg = None \/ colorList colors !! bg = None ->
       is_Some (InitPair d colors pair fg bg s).1).
Proof.
  intros term d colors pair fg bg s Hbyte Hpairs.
  assert (Hp : C_int pair = pair)
    by (apply C_int_id; unfold byte_range, int32_range in *; lia).
  assert (Hc : C_int (COLOR_PAIRS d s - 1) = COLOR_PAIRS d s - 1)
    by (apply C_int_id; unfold int32_range; lia).
  assert (Hbad : pair = 0 \/ COLOR_PAIRS d s <= pair ->
            InitPair d colors pair fg bg s =
              (Some "Invalid color pair selected", s)).
  { intros Hpair. unfold InitPair. rewrite Hp, Hc.
    destruct Hpair as [-> | Hge]; [reflexivity|].
    replace (COLOR_PAIRS d s - 1 <? pair) with true
      by (symmetry; apply Z.ltb_lt; lia).
    now rewrite orb_true_r. }
  assert (Hcolor : pair <> 0 -> pair < COLOR_PAIRS d s ->
            colorList colors !! fg = None \/ colorList colors !! bg = None ->
            InitPair d colors pair fg bg s =
              (Some "Invalid foreground color", s)).
  { intros Hnz Hlt Hunknown. unfold InitPair. rewrite Hp, Hc.
    rewrite bool_decide_eq_false_2 by assumption.
    replace (COLOR_PAIRS d s - 1 <? pair) with false
      by (symmetry; apply Z.ltb_ge; lia).
    simpl. destruct Hunknown as [-> | ->]; [reflexivity|].
    now destruct (colorList colors !! fg). }
  split; [exact Hbad | split; [exact Hcolor|]].
  intros Hunknown.
  destruct (decide (pair = 0 \/ COLOR_PAIRS d s <= pair)) as [Hpair | Hpair].
  - now rewrite (Hbad Hpair).
  - rewrite Hcolor; [easy | lia | lia | assumption].
Qed.

Lemma InitPair_rejects_witness :
  InitPair curses ncurses_colors 0 "red" "blue" (fresh_screen []) =
    (Some "Invalid color pair selected", fresh_screen []) /\
  InitPair curses ncurses_colors 64 "red" "blue" (fresh_screen []) =
    (Some "Invalid color pair selected", fresh_screen []) /\
  InitPair curses ncurses_colors 5 "red" "mauve" (fresh_screen []) =
    (Some "Invalid foreground color", fresh_screen []).
Proof.
  assert (Hpairs : - 2 ^ 31 < COLOR_PAIRS curses (fresh_screen []) < 2 ^ 31)
    by (simpl; lia).
  split; [|split].
  - apply (InitPair_rejects_bad_pair_and_unknown_color
             screen curses ncurses_colors 0 "red" "blue" (fresh_screen []));
      [unfold byte_range; lia | exact Hpairs | left; reflexivity].
  - apply (InitPair_rejects_bad_pair_and_unknown_color
             screen curses ncurses_colors 64 "red" "blue" (fresh_screen []));
      [unfold byte_range; lia | exact Hpairs | right; simpl; lia].
  - apply (InitPair_rejects_bad_pair_and_unknown_color
             screen curses ncurses_colors 5 "red" "mauve" (fresh_screen []));
      [unfold byte_range; lia | exact Hpairs | lia | simpl; lia
      | right; reflexivity].
Defined.

(** ** Window sizes *)

(** C10.  For every window of the library, [Maxyx] returns
    [(_maxy + 1, _maxx + 1)], each one more than the largest cursor
    coordinate, and the position [Getyx] returns lies below it in both
    components. *)
Theorem Maxyx_bounds_Getyx :
  forall win : WINDOW,
    window_ok win ->
    Maxyx win = (_maxy win + 1, _maxx win + 1) /\
    (Getyx win).1 < (Maxyx win).1 /\
    (Getyx win).2 < (Maxyx win).2.
Proof.
  intros win (Hy & Hx & Hlines & Hcols).
  assert (Hmax : Maxyx win = (_maxy win + 1, _maxx win + 1)).
  { unfold Maxyx. rewrite !C_short_id by (unfold short_range; lia).
    reflexivity. }
  rewrite Hmax. unfold Getyx. simpl. repeat split; lia.
Qed.

Lemma Maxyx_bounds_Getyx_witness :
  Maxyx {| _cury := 3; _curx := 10; _maxy := 23; _maxx := 79 |} = (24, 80) /\
  (Getyx {| _cury := 3; _curx := 10; _maxy := 23; _maxx := 79 |}).1 < 24 /\
  (Getyx {| _cury := 3; _curx := 10; _maxy := 23; _maxx := 79 |}).2 < 80.
Proof.
  apply (Maxyx_bounds_Getyx
           {| _cury := 3; _curx := 10; _maxy := 23; _maxx := 79 |}).
  unfold window_ok. simpl. lia.
Defined.

(** ** Attribute names *)

(** C4, as the specification states it, fails: on the single name
    [bogus], which the attribute table does not hold, [compose] is to
    fail with [UnknownAttribute], while the loop of [AddChar] composes
    the mask 0 and the character is added with it. *)
Lemma AddChar_does_not_reject_unknown_attribute :
  ~ AddChar_composes_as_specified ncurses_attrs.
Proof.
  intros Hclaim. specialize (Hclaim ["bogus"]).
  vm_compute in Hclaim. discriminate Hclaim.
Qed.

(** C4, amended.  [AddChar] has no error to return: the mask it
    composes is the union [compose] yields for the recognized names of
    the list, a name the table does not hold contributing no bit, and
    the call does what it does without those names.  [Attron] and
    [Attroff] do return an error for a name the table does not hold,
    after the library call they make all the same with the zero
    attribute: the error "Invalid attribute" when that call does not
    report [ERR], and the error "Failed to set attribute" (for
    [Attroff], "Failed to unset attribute") when it does. *)
Theorem unknown_attribute_dropped_by_AddChar_reported_by_Attron :
  forall term (d : Driver term) (attrs : AttrBits)
         (Sprintf : string -> list value -> string),
    let known := fun name => is_Some (attrList attrs !! name) in
    (forall names,
       compose_spec attrs (filter known names) =
         Mask (AddChar_loop attrs names)) /\
    (forall w ch names s,
       AddChar d attrs w ch names s =
         AddChar d attrs w ch (filter known names) s) /\
    (forall w name s, attrList attrs !! name = None ->
       is_Some (Attron d attrs Sprintf w name s).1 /\
       ((wattron d w 0 s).1 <> ERR d ->
        (Attron d attrs Sprintf w name s).1 =
          Some (Sprintf "Invalid attribute: " [VAttribute name])) /\
       Attron d attrs Sprintf w name s =
         (Some (if (wattron d w 0 s).1 =? ERR d
                then Sprintf "Failed to set attribute: %s" [VAttribute name]
                else Sprintf "Invalid attribute: " [VAttribute name]),
          (wattron d w 0 s).2)) /\
    (forall w name s, attrList attrs !! name = None ->
       is_Some (Attroff d attrs Sprintf w name s).1 /\
       ((wattroff d w 0 s).1 <> ERR d ->
        (Attroff d attrs Sprintf w name s).1 =
          Some (Sprintf "Invalid attribute: " [VAttribute name])) /\
       Attroff d attrs Sprintf w name s =
         (Some (if (wattroff d w 0 s).1 =? ERR d
                then Sprintf "Failed to unset attribute: %s" [VAttribute name]
                else Sprintf "Invalid attribute: " [VAttribute name]),
          (wattroff d w 0 s).2)).
Proof.
  intros term d attrs Sprintf known. subst known.
  assert (Hloop : forall names,
            AddChar_loop attrs names =
              AddChar_loop attrs
                (filter (fun name => is_Some (attrList attrs !! name)) names)).
  { intros names. apply loop_filter. }
  split; [|split; [|split]].
  - intros names. unfold compose_spec.
    rewrite (known_filter (attrList attrs) names).
    rewrite (Hloop names). unfold AddChar_loop.
    now rewrite (loop_foldr (attrList attrs)).
  - intros w ch names s. unfold AddChar. now rewrite <- Hloop.
  - intros w name s Hname. unfold Attron. rewrite Hname. simpl.
    destruct (wattron d w 0 s) as [rc s']. simpl.
    destruct (rc =? ERR d) eqn:Hrc; simpl.
    + split; [eauto|]. split; [|reflexivity].
      intros Hne. apply Z.eqb_eq in Hrc. contradiction.
    + split; [eauto | split; reflexivity].
  - intros w name s Hname. unfold Attroff. rewrite Hname. simpl.
    destruct (wattroff d w 0 s) as [rc s']. simpl.
    destruct (rc =? ERR d) eqn:Hrc; simpl.
    + split; [eauto|]. split; [|reflexivity].
      intros Hne. apply Z.eqb_eq in Hrc. contradiction.
    + split; [eauto | split; reflexivity].
Qed.

(** ** Deleted windows *)

(** Over a library whose every call returns, an operation hands back
    its own error exactly when its library call reports [ERR], and
    leaves the terminal as that call left it. *)
Lemma operations_report_what_the_library_reports :
  forall term (d : Driver term) (attrs : AttrBits)
         (op : wop) (w : Z) (s : term),
    run_op d attrs op w s =
      (if (library_call d attrs op w s).1 =? ERR d
       then failure_message op else None,
       (library_call d attrs op w s).2).
Proof.
  intros term d attrs op w s.
  destruct op; cbn [run_op library_call failure_message];
    unfold AddChar, Border, Box, Clear, ClearToBottom, ClearToEOL, ColorOff,
      ColorOn, Delete, Erase, HLine, Keypad, Move, Refresh, Resize, Touch;
    match goal with
    | |- context [let '(_, _) := ?call in _] =>
        destruct call as [rc s'] eqn:Hcall
    end;
    cbn [fst snd]; now destruct (rc =? ERR d).
Qed.

(** The two embeddings of the operations agree where every library
    call returns. *)
Lemma run_op_always_returns :
  forall term (d : Driver term) (attrs : AttrBits)
         (op : wop) (w : Z) (s : term),
    Unsafe.run_op (always_returns d) attrs op w s =
      Some (run_op d attrs op w s).
Proof.
  intros term d attrs op w s.
  destruct op; cbn [run_op Unsafe.run_op];
    unfold AddChar, Border, Box, Clear, ClearToBottom, ClearToEOL, ColorOff,
      ColorOn, Delete, Erase, HLine, Keypad, Move, Refresh, Resize, Touch,
      Unsafe.AddChar, Unsafe.Border, Unsafe.Box, Unsafe.Clear,
      Unsafe.ClearToBottom, Unsafe.ClearToEOL, Unsafe.ColorOff,
      Unsafe.ColorOn, Unsafe.Delete, Unsafe.Erase, Unsafe.HLine,
      Unsafe.Keypad, Unsafe.Move, Unsafe.Refresh, Unsafe.Resize,
      Unsafe.Touch, Unsafe.no_result, Unsafe.C_chtype, C_chtype;
    cbn [always_returns Unsafe.waddch Unsafe.wborder Unsafe.box Unsafe.wclear
         Unsafe.wclrtobot Unsafe.wclrtoeol Unsafe.wattroff Unsafe.wattron
         Unsafe.delwin Unsafe.werase Unsafe.mvwhline Unsafe.keypad
         Unsafe.wmove Unsafe.wrefresh Unsafe.wresize Unsafe.touchwin
         Unsafe.ERR Unsafe.chtype_bits Unsafe.COLOR_PAIR
         mbind option_bind];
    match goal with
    | |- context [let '(_, _) := ?call in _] =>
        destruct call as [rc s'] eqn:Hcall
    end;
    cbn [fst snd mbind option_bind]; now destruct (rc =? ERR d).
Qed.




(** ** Sessions *)

(** C9, as the specification states it, fails: on a fresh terminal
    [Init] succeeds, and a second [Init], with no [End] in between,
    returns the root window again and no error. *)
Lemma second_Init_succeeds : ~ single_session curses.
Proof.
  intros Hsingle.
  pose (s1 := (Init curses (fresh_screen [])).2).
  assert (Hfirst : Init curses (fresh_screen []) = (1, None, s1))
    by reflexivity.
  assert (Hsecond : Init curses s1 = (1, None, s1)) by reflexivity.
  destruct (Hsingle _ _ _ Hfirst _ _ _ Hsecond) as [e He].
  discriminate He.
Qed.

(** C9, amended.  [Init] returns what the library's [initscr] returns,
    with the error "An error occurred initializing ncurses" exactly
    when that is the nil pointer; the package keeps no record of a
    session, so that a second [Init] fails only if [initscr] then
    returns nil. *)
Theorem Init_reports_nil_from_initscr :
  forall term (d : Driver term) (s : term),
    Init d s =
      ((initscr d s).1,
       if (initscr d s).1 =? 0
       then Some "An error occurred initializing ncurses" else None,
       (initscr d s).2) /\
    (is_Some (Init d s).1.2 <-> (initscr d s).1 = 0).
Proof.
  intros term d s. unfold Init.
  destruct (initscr d s) as [stdscr s'] eqn:Hcall. cbn [fst snd].
  split; [reflexivity|].
  destruct (stdscr =? 0) eqn:Hnil.
  - apply Z.eqb_eq in Hnil. split; [easy | eauto].
  - apply Z.eqb_neq in Hnil. split; [intros [e He]; discriminate | easy].
Qed.

(** ** Bounded input *)

(** What [GetString] leaves past the end of its buffer is what the
    library stored beyond the first [n] bytes. *)
Lemma GetString_past_end {term} (d : Driver term) (w n : Z) (s : term) r s' :
  GetString d w n s = Returns (r, s') ->
  gs_past_end r = drop (Z.to_nat n) (wgetnstr d w (C_int n) s).1.2 /\
  length (gs_cstr r) = Z.to_nat n.
Proof.
  unfold GetString. destruct (n <? 0) eqn:Hneg; [discriminate|].
  apply Z.ltb_ge in Hneg.
  destruct (index (replicate (Z.to_nat n) 0) 0) as [z|] eqn:Hidx;
    [|discriminate].
  cbn [mbind outcome_bind].
  destruct (wgetnstr d w (C_int n) s) as [[rc stored] s1]. cbn [fst snd].
  assert (Hlen : length (take (Z.to_nat n) stored ++
                         drop (length stored) (replicate (Z.to_nat n) 0))
                 = Z.to_nat n).
  { rewrite length_app, length_take, length_drop, length_replicate. lia. }
  destruct (rc =? ERR d); intros [= <- <-]; cbn; now split.
Qed.

(** The loop of the library's [wgetnstr], on a line typed in full:
    the first [room] characters of the line are stored, and the line is
    consumed with its newline. *)
Lemma getnstr_loop_line (line rest : list Z) (room : nat) :
  Forall (fun ch => ch <> 10 /\ ch <> 13) line ->
  getnstr_loop (line ++ 10 :: rest) room = (take room line, rest, 0).
Proof.
  revert room. induction line as [|ch line IH]; intros room Hline.
  - now destruct room.
  - apply Forall_cons in Hline as [[Hnl Hcr] Hline].
    apply Z.eqb_neq in Hnl, Hcr.
    destruct room as [|room]; simpl; rewrite Hnl, Hcr; simpl.
    + rewrite IH by assumption. now rewrite take_0.
    + now rewrite IH by assumption.
Qed.

(** [GetString n] on the library above, with a line typed in full on a
    live window: the call returns; the terminating NUL falls past the
    end of the buffer exactly when the line has [n] characters or
    more. *)
Lemma GetString_on_a_line (w n : Z) (line rest : list Z) (s : screen) :
  1 <= n < 2 ^ 31 -> live w s = true -> queue s = line ++ 10 :: rest ->
  Forall (fun ch => ch <> 10 /\ ch <> 13) line ->
  exists r s',
    GetString curses w n s = Returns (r, s') /\
    gs_err r = None /\
    gs_past_end r = (if decide (Z.to_nat n <= length line)%nat
                     then [0] else []).
Proof.
  intros Hn Hlive Hqueue Hline. unfold GetString.
  replace (n <? 0) with false by (symmetry; apply Z.ltb_ge; lia).
  destruct (Z.to_nat n) as [|k] eqn:Hk; [lia|].
  cbn [replicate index lookup list_lookup mbind outcome_bind].
  rewrite C_int_id by (unfold int32_range; lia).
  cbn [wgetnstr curses]. unfold curses_wgetnstr.
  rewrite Hlive, Hqueue, getnstr_loop_line, Hk by assumption.
  cbn [ERR curses]. change (0 =? -1) with false. cbv iota.
  eexists _, _. split; [reflexivity|]. cbn [gs_err gs_past_end].
  split; [reflexivity|].
  destruct (decide (S k <= length line)%nat) as [Hfull | Hshort].
  - rewrite drop_app_length'; [reflexivity|]. rewrite length_take. lia.
  - rewrite take_ge by lia. apply drop_ge. rewrite length_app. simpl. lia.
Qed.

(** C1 fails on the code.  [GetString 5] with the ten characters
    [abcdefghij] and a newline typed: the library stores the five
    characters [abcde] in the five bytes of the buffer and the
    terminating NUL in a sixth byte, past the end of the buffer; the
    string returned is [abcde].  The same happens for every bound [n]
    from 1 on and every line of [n] characters or more. *)
Theorem GetString_writes_past_its_buffer :
  GetString curses 1 5
    (Init curses (fresh_screen (typed "abcdefghij" ++ [10]))).2 =
  Returns
    ({| gs_string := "abcde"; gs_err := None;
        gs_cstr := [97; 98; 99; 100; 101];
        gs_past_end := [0] |},
     {| windows := [1]; queue := []; color_pairs := 64 |}) /\
  (forall (n : Z) (line rest : list Z),
     1 <= n < 2 ^ 31 ->
     Forall (fun ch => ch <> 10 /\ ch <> 13) line ->
     (Z.to_nat n <= length line)%nat ->
     exists r s',
       GetString curses 1 n (Init curses (fresh_screen (line ++ 10 :: rest))).2
         = Returns (r, s') /\
       length (gs_cstr r) = Z.to_nat n /\
       gs_past_end r = [0]).
Proof.
  split; [reflexivity|].
  intros n line rest Hn Hline Hfull.
  destruct (GetString_on_a_line 1 n line rest
              (Init curses (fresh_screen (line ++ 10 :: rest))).2)
    as (r & s' & Hrun & _ & Hpast); [assumption | reflexivity.. | assumption |].
  exists r, s'. split; [exact Hrun|]. split.
  - now apply GetString_past_end in Hrun.
  - rewrite Hpast. now destruct (decide (Z.to_nat n <= length line)%nat).
Qed.

(** ** Arguments of [Print] and [GetString] *)

Section Print.
Context {term : Type} (d : Driver term).
Context (Sprintf : string -> list value -> string).

(** Runs [Print] on an argument list whose shape is known, up to the
    library call. *)
Ltac run_Print :=
  unfold Print; cbn; rewrite ?drop_0;
  match goal with
  | |- context [let '(_, _) := ?call in _] => now destruct call
  end.

(** Two leading integers: the text goes to [(y, x)]. *)
Lemma Print_two_coordinates (w y x : Z) format rest (s : term) :
  Print d Sprintf w (VInt y :: VInt x :: VString format :: rest) s =
    Returns (tt, (mvwaddstr d w (C_int y) (C_int x) (Sprintf format rest) s).2).
Proof. run_Print. Qed.

(** One leading integer: the text goes to [(y, 0)]. *)
Lemma Print_one_coordinate (w y : Z) format rest (s : term) :
  Print d Sprintf w (VInt y :: VString format :: rest) s =
    Returns (tt, (mvwaddstr d w (C_int y) (C_int 0) (Sprintf format rest) s).2).
Proof. destruct rest as [|a rest]; run_Print. Qed.

(** No leading integer, and at most one argument after the format: the
    text goes to the cursor. *)
Lemma Print_at_cursor_short (w : Z) format rest (s : term) :
  (length rest <= 1)%nat ->
  Print d Sprintf w (VString format :: rest) s =
    Returns (tt, (waddstr d w (Sprintf format rest) s).2).
Proof.
  intros Hlen. destruct rest as [|a [|b rest]]; [| |simpl in Hlen; lia];
    run_Print.
Qed.

(** No leading integer, and a first argument after the format that is
    no [int]: the text goes to the cursor. *)
Lemma Print_at_cursor_no_int (w : Z) format a rest (s : term) :
  TypeOf a <> None -> TypeOf a <> Some "int" ->
  Print d Sprintf w (VString format :: a :: rest) s =
    Returns (tt, (waddstr d w (Sprintf format (a :: rest)) s).2).
Proof.
  intros Hnil Hint.
  destruct a; try (cbn in Hnil, Hint; congruence);
    destruct rest as [|a' rest]; run_Print.
Qed.

End Print.

(** C2 fails on the code.  A call with no leading integer, whose format
    is followed by an [int] and at least one more argument, such as
    [Print("%d %d", 3, 4)], writes nothing: the second test counts the
    [int] after the format as a coordinate, the format is then looked
    for one place too far, and the call panics. *)
Theorem Print_format_then_int_panics :
  forall term (d : Driver term) (Sprintf : string -> list value -> string)
         (w : Z) (format : string) (n : Z) (a : value) (rest : list value)
         (s : term),
    Print d Sprintf w (VString format :: VInt n :: a :: rest) s =
      Panics "interface conversion: interface is not string" /\
    Print d Sprintf w [VString "%d %d"; VInt 3; VInt 4] s =
      Panics "interface conversion: interface is not string".
Proof. intros. split; reflexivity. Qed.

(** C3 fails on the code.  [GetString 0] takes the address of the
    first byte of an empty slice, and [Print] called with one integer,
    with integers only or with nothing looks for a format string that
    is not there: each of these calls panics. *)
Theorem GetString_0_and_Print_without_format_panic :
  forall term (d : Driver term) (Sprintf : string -> list value -> string)
         (w : Z) (s : term),
    GetString d w 0 s = Panics "index out of range" /\
    Print d Sprintf w [VInt 5] s =
      Panics "interface conversion: interface is not string" /\
    Print d Sprintf w [VInt 5; VInt 10] s =
      Panics "interface conversion: interface is not string" /\
    Print d Sprintf w [] s = Panics "index out of range".
Proof. intros. repeat split; reflexivity. Qed.

(** * Further properties *)

(** ** Conversions, continued *)

Lemma C_short_period (z k : Z) : C_short (z + 65536 * k) = C_short z.
Proof.
  unfold C_short, wrap_signed.
  replace (z + 65536 * k + 2 ^ (16 - 1)) with (z + 2 ^ (16 - 1) + k * 2 ^ 16)
    by (change (2 ^ 16) with 65536; lia).
  now rewrite Z.mod_add by (change (2 ^ 16) with 65536; lia).
Qed.

Lemma lor_below_pow2 (a b n : Z) :
  0 <= a < 2 ^ n -> 0 <= b < 2 ^ n -> 0 <= Z.lor a b < 2 ^ n.
Proof.
  intros Ha Hb. split; [apply Z.lor_nonneg; lia|].
  destruct (Z.eq_dec a 0) as [-> | Hna]; [now rewrite Z.lor_0_l|].
  destruct (Z.eq_dec b 0) as [-> | Hnb]; [now rewrite Z.lor_0_r|].
  assert (Hpos : 0 < Z.lor a b).
  { assert (0 <= Z.lor a b) by (apply Z.lor_nonneg; lia).
    assert (Z.lor a b <> 0) by (rewrite Z.lor_eq_0_iff; lia). lia. }
  apply Z.log2_lt_pow2; [exact Hpos|].
  rewrite Z.log2_lor by lia.
  apply Z.max_lub_lt; apply Z.log2_lt_pow2; lia.
Qed.

(** ** Mask loops, continued *)

Section MaskLoopCompose.
Variable table : gmap string Z.

Let loop (names : list string) : Z :=
  fold_left (fun acc name => Z.lor acc (default 0 (table !! name))) names 0.

Lemma loop_app names1 names2 :
  loop (names1 ++ names2) = Z.lor (loop names1) (loop names2).
Proof.
  induction names1 as [|name names1 IH].
  - reflexivity.
  - change (loop ((name :: names1) ++ names2))
      with (loop (name :: names1 ++ names2)).
    unfold loop in *. rewrite !loop_cons, IH. now rewrite Z.lor_assoc.
Qed.

Lemma loop_Permutation names1 names2 :
  names1 ≡ₚ names2 -> loop names1 = loop names2.
Proof.
  unfold loop.
  induction 1 as [|name names1 names2 _ IH|name1 name2 names|? ? ? _ IH1 _ IH2].
  - reflexivity.
  - now rewrite !loop_cons, IH.
  - rewrite !loop_cons, !Z.lor_assoc.
    now rewrite (Z.lor_comm (default 0 (table !! name2))).
  - now rewrite IH1.
Qed.

Lemma loop_twice names : loop (names ++ names) = loop names.
Proof. rewrite loop_app. apply Z.lor_diag. Qed.

Lemma loop_below_pow2 names n :
  0 <= n ->
  map_Forall (fun _ bits => 0 <= bits < 2 ^ n) table ->
  0 <= loop names < 2 ^ n.
Proof.
  intros Hn Htable. unfold loop.
  assert (Hpow : 0 < 2 ^ n) by now apply Z.pow_pos_nonneg.
  induction names as [|name names IH].
  - simpl. lia.
  - rewrite loop_cons. apply lor_below_pow2; [|exact IH].
    destruct (table !! name) as [bits|] eqn:Hlook; simpl; [|lia].
    exact (Htable name bits Hlook).
Qed.

End MaskLoopCompose.

(** ** Arguments of [Print], continued *)

Lemma returns_Returns {A} (a : A) : returns (Returns a).
Proof. now exists a. Qed.

Lemma returns_Panics {A} (msg : string) : ~ returns (@Panics A msg).
Proof. intros [a Ha]. discriminate Ha. Qed.

(** Settles whether a call of [Print] on an argument list of known
    shape returns. *)
Ltac decide_Print :=
  unfold Print; cbn; rewrite ?drop_0;
  try match goal with
      | |- context [let '(_, _) := ?call in _] => destruct call
      end;
  split; intros Hrun;
  first [ reflexivity
        | apply returns_Returns
        | exfalso; exact (returns_Panics _ Hrun)
        | discriminate Hrun ].

(** X3.  [Print] returns exactly on the argument lists of
    [Print_accepts], whatever the library and the formatting function:
    a format alone or with one argument, a format followed by an
    argument that is neither an [int] nor nil and by more, one integer
    and a format, two integers and a format.  On every other list (no
    argument, no format string where it is looked for, a nil among the
    first two of three or more) the call panics. *)
Theorem Print_returns_iff_accepts :
  forall term (d : Driver term) (Sprintf : string -> list value -> string)
         (w : Z) (args : list value) (s : term),
    returns (Print d Sprintf w args s) <-> Print_accepts args = true.
Proof.
  intros term d Sprintf w args s.
  destruct args as [|a [|b [|c rest]]].
  - decide_Print.
  - destruct a; decide_Print.
  - destruct a; destruct b; decide_Print.
  - destruct a; destruct b; destruct c; decide_Print.
Qed.

(** X4.  With no leading integer, on an argument list [Print] accepts,
    the text is written at the cursor: the call returns after the one
    library call [waddstr], on the format expanded with all the
    arguments after it. *)
Theorem Print_at_cursor :
  forall term (d : Driver term) (Sprintf : string -> list value -> string)
         (w : Z) (format : string) (rest : list value) (s : term),
    Print_accepts (VString format :: rest) = true ->
    Print d Sprintf w (VString format :: rest) s =
      Returns (tt, (waddstr d w (Sprintf format rest) s).2).
Proof.
  intros term d Sprintf w format rest s Hok.
  destruct rest as [|a [|b rest]].
  - apply Print_at_cursor_short. simpl. lia.
  - apply Print_at_cursor_short. simpl. lia.
  - apply Print_at_cursor_no_int; destruct a; cbn in *; congruence.
Qed.

Lemma Print_at_cursor_witness :
  Print curses Sprintf_verbatim 1
    [VString "%s and %d"; VString "one"; VInt 2] (fresh_screen []) =
  Returns (tt, fresh_screen []).
Proof.
  apply (Print_at_cursor screen curses Sprintf_verbatim 1 "%s and %d"
           [VString "one"; VInt 2] (fresh_screen [])).
  reflexivity.
Defined.

(** ** Masks, continued *)

(** X5.  The mask of [MouseMask] does not depend on how the names are
    listed: the mask of two lists put end to end is the union of their
    masks, lists that are rearrangements of each other have the same
    mask, and naming the events twice changes nothing. *)
Theorem MouseMask_order_and_repetition :
  forall (mouse : MouseBits) (masks1 masks2 : list string),
    MouseMask_loop mouse (masks1 ++ masks2) =
      Z.lor (MouseMask_loop mouse masks1) (MouseMask_loop mouse masks2) /\
    (masks1 ≡ₚ masks2 ->
       MouseMask_loop mouse masks1 = MouseMask_loop mouse masks2) /\
    MouseMask_loop mouse (masks1 ++ masks1) = MouseMask_loop mouse masks1.
Proof.
  intros mouse masks1 masks2. unfold MouseMask_loop. split; [|split].
  - apply loop_app.
  - apply loop_Permutation.
  - apply loop_twice.
Qed.

(** X6.  For a character below [2^31], attribute bits below [2^31] and
    a [chtype] of 31 bits or more, the conversions of [AddChar] lose
    nothing: the library's [waddch] receives the character with
    exactly the bits of the recognized attribute names added, whatever
    the order of the names. *)
Theorem AddChar_passes_character_with_attribute_bits :
  forall term (d : Driver term) (attrs : AttrBits)
         (w ch : Z) (attributes : list string) (s : term),
    0 <= ch < 2 ^ 31 ->
    map_Forall (fun _ bits => 0 <= bits < 2 ^ 31) (attrList attrs) ->
    31 <= chtype_bits d ->
    AddChar d attrs w ch attributes s =
      (tt, (waddch d w (Z.lor ch (AddChar_loop attrs attributes)) s).2) /\
    (forall i, Z.testbit (Z.lor ch (AddChar_loop attrs attributes)) i = true <->
       Z.testbit ch i = true \/
       exists name bits,
         name ∈ attributes /\ attrList attrs !! name = Some bits /\
         Z.testbit bits i = true) /\
    (forall attributes', attributes ≡ₚ attributes' ->
       AddChar d attrs w ch attributes' s = AddChar d attrs w ch attributes s).
Proof.
  intros term d attrs w ch attributes s Hch Hbits Hwide.
  assert (Hmask : 0 <= AddChar_loop attrs attributes < 2 ^ 31)
    by (apply loop_below_pow2; [lia | exact Hbits]).
  assert (Hboth : 0 <= Z.lor ch (AddChar_loop attrs attributes) < 2 ^ 31)
    by now apply lor_below_pow2.
  assert (Hpow : 2 ^ 31 <= 2 ^ chtype_bits d)
    by (apply Z.pow_le_mono_r; lia).
  split; [|split].
  - unfold AddChar.
    rewrite (C_int_id ch) by (unfold int32_range; lia).
    unfold C_chtype. rewrite Z.mod_small by lia.
    now destruct (waddch d w _ s).
  - intros i. rewrite Z.lor_spec, orb_true_iff.
    unfold AddChar_loop. now rewrite loop_testbit.
  - intros attributes' Hperm. unfold AddChar, AddChar_loop.
    now rewrite (loop_Permutation (attrList attrs) _ _ Hperm).
Qed.

Lemma AddChar_passes_character_witness :
  AddChar curses ncurses_attrs 1 65 ["bold"; "underline"]
    (Init curses (fresh_screen [])).2 =
  (tt, (waddch curses 1 (Z.lor 65 (Z.lor (Z.shiftl 1 21) (Z.shiftl 1 17)))
          (Init curses (fresh_screen [])).2).2).
Proof.
  assert (Hch : 0 <= 65 < 2 ^ 31) by lia.
  assert (Hbits : map_Forall (fun _ bits => 0 <= bits < 2 ^ 31)
                    (attrList ncurses_attrs)).
  { unfold attrList, list_to_map. cbn [fold_right fst snd].
    repeat (apply map_Forall_insert_2;
            [split; [apply Z.leb_le | apply Z.ltb_lt]; reflexivity|]).
    apply map_Forall_empty. }
  assert (Hwide : 31 <= chtype_bits curses) by (simpl; lia).
  exact (proj1 (AddChar_passes_character_with_attribute_bits
                  screen curses ncurses_attrs 1 65 ["bold"; "underline"]
                  (Init curses (fresh_screen [])).2 Hch Hbits Hwide)).
Defined.

(** X7.  [Attron] on a recognized attribute name passes the bits of
    the name to the library's [wattron] and returns an error, the one
    of a failure to set the attribute, exactly when [wattron] reports
    [ERR]; [Attroff] does the same with [wattroff].  On a name that is
    not recognized the library call is made all the same, with the
    attribute 0. *)
Theorem Attron_Attroff_call_the_library :
  forall term (d : Driver term) (attrs : AttrBits)
         (Sprintf : string -> list value -> string)
         (w : Z) (name : string) (s : term),
    let bits := default 0 (attrList attrs !! name) in
    (Attron d attrs Sprintf w name s).2 = (wattron d w bits s).2 /\
    (Attroff d attrs Sprintf w name s).2 = (wattroff d w bits s).2 /\
    (is_Some (attrList attrs !! name) ->
       (Attron d attrs Sprintf w name s).1 =
         (if (wattron d w bits s).1 =? ERR d
          then Some (Sprintf "Failed to set attribute: %s" [VAttribute name])
          else None) /\
       (Attroff d attrs Sprintf w name s).1 =
         (if (wattroff d w bits s).1 =? ERR d
          then Some (Sprintf "Failed to unset attribute: %s" [VAttribute name])
          else None)).
Proof.
  intros term d attrs Sprintf w name s bits. subst bits.
  unfold Attron, Attroff.
  destruct (wattron d w _ s) as [rc1 s1], (wattroff d w _ s) as [rc2 s2].
  cbn [fst snd]. split; [reflexivity | split; [reflexivity|]].
  intros Hknown. rewrite bool_decide_eq_true_2 by assumption.
  cbn [negb]. split; reflexivity.
Qed.

(** ** Backgrounds *)

Section BackgroundLoop.
Context {term : Type} (l : Curses term) (attrs : AttrBits).

#[local] Arguments attrList : simpl never.

Lemma Background_step_nil nattr :
  Background_step l attrs nattr VNil =
    Panics "invalid memory address or nil pointer dereference".
Proof. reflexivity. Qed.

Lemma Background_step_returns nattr ch :
  ch <> VNil -> returns (Background_step l attrs nattr ch).
Proof.
  intros Hnil. destruct ch; try congruence; cbn;
    try apply returns_Returns.
  destruct (attrList attrs !! s); apply returns_Returns.
Qed.

Lemma Background_step_skips nattr ch :
  ch <> VNil -> Background_counts attrs ch = false ->
  Background_step l attrs nattr ch = Returns nattr.
Proof.
  intros Hnil Hskip. destruct ch; try congruence; try reflexivity;
    cbn in Hskip; [discriminate|].
  apply bool_decide_eq_false in Hskip. apply eq_None_not_Some in Hskip.
  cbn. now rewrite Hskip.
Qed.

Lemma Background_loop_returns args nattr :
  returns (Background_loop l attrs args nattr) <-> VNil ∉ args.
Proof.
  revert nattr. induction args as [|ch args IH]; intros nattr.
  - split; [intros _ Hin; inversion Hin | intros _; apply returns_Returns].
  - rewrite not_elem_of_cons. cbn [Background_loop].
    assert (Hcase : ch = VNil \/ ch <> VNil)
      by (destruct ch; (now left) || (now right)).
    destruct Hcase as [-> | Hch].
    + rewrite Background_step_nil. split.
      * intros Hrun. exfalso. exact (returns_Panics _ Hrun).
      * intros [Hne _]. congruence.
    + destruct (Background_step_returns nattr ch Hch) as [nattr' ->].
      cbn [mbind outcome_bind]. rewrite IH. intuition congruence.
Qed.

Lemma Background_loop_filter args nattr :
  VNil ∉ args ->
  Background_loop l attrs args nattr =
    Background_loop l attrs (filter (fun v => Background_counts attrs v) args)
      nattr.
Proof.
  revert nattr. induction args as [|ch args IH]; intros nattr Hnil.
  - reflexivity.
  - apply not_elem_of_cons in Hnil as [Hch Hnil].
    rewrite filter_cons. cbn [Background_loop].
    destruct (decide (Background_counts attrs ch)) as [Hcount | Hskip].
    + cbn [Background_loop].
      destruct (Background_step l attrs nattr ch); [|reflexivity].
      cbn [mbind outcome_bind]. now apply IH.
    + apply Is_true_false_1 in Hskip.
      rewrite Background_step_skips by (congruence || assumption).
      cbn [mbind outcome_bind]. now apply IH.
Qed.

End BackgroundLoop.

(** X8.  [Background] panics exactly when one of its arguments is nil.
    Otherwise only the integers and the strings naming a recognized
    attribute count: every other argument (a byte, a value of the type
    [Attribute], a string that names no attribute, ...) is passed over
    without an error, and the call does what it does without it. *)
Theorem Background_counts_ints_and_attribute_names_only :
  forall term (l : Curses term) (attrs : AttrBits)
         (w : Z) (args : list value) (s : term),
    (returns (Background l attrs w args s) <-> VNil ∉ args) /\
    (VNil ∉ args ->
       Background l attrs w args s =
         Background l attrs w
           (filter (fun v => Background_counts attrs v) args) s) /\
    Background l attrs w [VAttribute "bold"; VByte 1; VString "no-such"] s =
      Background l attrs w [] s.
Proof.
  intros term l attrs w args s. split; [|split].
  - rewrite <- (Background_loop_returns l attrs args 0). unfold Background.
    destruct (Background_loop l attrs args 0) as [nattr|msg];
      cbn [mbind outcome_bind].
    + destruct (wbkgd l w nattr s).
      split; intros _; apply returns_Returns.
    + split; intros Hrun; exfalso; exact (returns_Panics _ Hrun).
  - intros Hnil. unfold Background.
    now rewrite <- (Background_loop_filter l attrs args 0 Hnil).
  - reflexivity.
Qed.

(** ** Delays, synchronisation, colours *)

(** X9.  [HalfDelay] with a delay of 0 or less makes no library call:
    it leaves the terminal as it is and returns no error (the library's
    [ERR] being other than 0).  With a positive delay it returns its
    error exactly when the library's [halfdelay] reports [ERR]. *)
Theorem HalfDelay_ignores_nonpositive_delay :
  forall term (l : Curses term) (delay : Z) (s : term),
    ERR l <> 0 ->
    (delay <= 0 -> HalfDelay l delay s = (None, s)) /\
    (0 < delay ->
       HalfDelay l delay s =
         (if (halfdelay l (C_int delay) s).1 =? ERR l
          then Some "Unable to set echo mode" else None,
          (halfdelay l (C_int delay) s).2)).
Proof.
  intros term l delay s Herr. unfold HalfDelay. split; intros Hdelay.
  - replace (0 <? delay) with false by (symmetry; apply Z.ltb_ge; lia).
    replace (0 =? ERR l) with false by (symmetry; apply Z.eqb_neq; lia).
    reflexivity.
  - replace (0 <? delay) with true by (symmetry; apply Z.ltb_lt; lia).
    destruct (halfdelay l (C_int delay) s) as [rc s']. cbn [fst snd].
    now destruct (rc =? ERR l).
Qed.

Lemma HalfDelay_witness :
  HalfDelay curses_more 0 (fresh_screen []) = (None, fresh_screen []) /\
  HalfDelay curses_more (-3) (fresh_screen []) = (None, fresh_screen []).
Proof.
  assert (Herr : ERR curses_more <> 0) by (simpl; lia).
  split.
  - apply (HalfDelay_ignores_nonpositive_delay
             screen curses_more 0 (fresh_screen []) Herr). lia.
  - apply (HalfDelay_ignores_nonpositive_delay
             screen curses_more (-3) (fresh_screen []) Herr). lia.
Defined.

(** X10.  [Sync] with a mode other than [SYNC_CURSOR], [SYNC_DOWN] and
    [SYNC_UP], [SYNC_NONE] among them, makes no library call and leaves
    the terminal as it is. *)
Theorem Sync_ignores_other_modes :
  forall term (l : Curses term) (w sync : Z) (s : term),
    sync <> SYNC_CURSOR -> sync <> SYNC_DOWN -> sync <> SYNC_UP ->
    Sync l w sync s = (tt, s).
Proof.
  intros term l w sync s Hcursor Hdown Hup. unfold Sync.
  apply Z.eqb_neq in Hcursor, Hdown, Hup.
  now rewrite Hcursor, Hdown, Hup.
Qed.

Lemma Sync_ignores_witness :
  Sync curses_more 1 SYNC_NONE (fresh_screen []) = (tt, fresh_screen []) /\
  Sync curses_more 1 7 (fresh_screen []) = (tt, fresh_screen []).
Proof.
  split.
  - apply (Sync_ignores_other_modes screen curses_more 1 SYNC_NONE);
      unfold SYNC_NONE, SYNC_CURSOR, SYNC_DOWN, SYNC_UP; lia.
  - apply (Sync_ignores_other_modes screen curses_more 1 7);
      unfold SYNC_CURSOR, SYNC_DOWN, SYNC_UP; lia.
Defined.

(** X11.  [InitColor] on a colour name that is not in the table
    returns its error without a library call.  On a recognized name it
    does not check the components: each is converted to a C [short], so
    that a component and the same component plus a multiple of 65536
    give the same call, and the error returned for a refusal by the
    library is the very error returned for an unknown name. *)
Theorem InitColor_unknown_name_and_unchecked_components :
  forall term (l : Curses term) (colors : ColorIds)
         (color : string) (r g b : Z) (s : term),
    (colorList colors !! color = None ->
       InitColor l colors color r g b s =
         (Some "Failed to set new color definition", s)) /\
    (forall kr kg kb,
       InitColor l colors color
         (r + 65536 * kr) (g + 65536 * kg) (b + 65536 * kb) s =
       InitColor l colors color r g b s) /\
    (forall e, (InitColor l colors color r g b s).1 = Some e ->
       e = "Failed to set new color definition").
Proof.
  intros term l colors color r g b s. unfold InitColor. split; [|split].
  - now intros ->.
  - intros kr kg kb. now rewrite !C_short_period.
  - intros e. destruct (colorList colors !! color) as [col|].
    + destruct (init_color l _ _ _ _ s) as [rc s'].
      destruct (rc =? ERR l); cbn; congruence.
    + cbn. congruence.
Qed.

(** X12.  [InitPair] on a pair number from 1 to [COLOR_PAIRS - 1] and
    two recognized colour names (indices that are C [short]s) makes
    the one library call [init_pair] on the pair number and the indices
    the table gives the names, foreground first; it returns the error
    "Failed to init color pair" exactly when the call reports [ERR]. *)
Theorem InitPair_defines_the_pair :
  forall term (d : Driver term) (colors : ColorIds)
         (pair : Z) (fg bg : string) (fg_color bg_color : Z) (s : term),
    byte_range pair -> pair <> 0 -> pair < COLOR_PAIRS d s ->
    COLOR_PAIRS d s < 2 ^ 31 ->
    colorList colors !! fg = Some fg_color -> short_range fg_color ->
    colorList colors !! bg = Some bg_color -> short_range bg_color ->
    InitPair d colors pair fg bg s =
      (if (init_pair d pair fg_color bg_color s).1 =? ERR d
       then Some "Failed to init color pair" else None,
       (init_pair d pair fg_color bg_color s).2).
Proof.
  intros term d colors pair fg bg fg_color bg_color s
    Hbyte Hnz Hlt Hpairs Hfg Hfgs Hbg Hbgs.
  unfold InitPair, byte_range in *.
  rewrite !C_int_id by (unfold int32_range; lia).
  rewrite bool_decide_eq_false_2 by assumption.
  replace (COLOR_PAIRS d s - 1 <? pair) with false
    by (symmetry; apply Z.ltb_ge; lia).
  cbn [orb]. rewrite Hfg, Hbg.
  rewrite !C_short_id by (assumption || (unfold short_range; lia)).
  destruct (init_pair d pair fg_color bg_color s) as [rc s']. cbn [fst snd].
  now destruct (rc =? ERR d).
Qed.

Lemma InitPair_defines_the_pair_witness :
  InitPair curses ncurses_colors 5 "yellow" "blue" (fresh_screen []) =
    (None, fresh_screen []).
Proof.
  apply (InitPair_defines_the_pair screen curses ncurses_colors
           5 "yellow" "blue" 3 4 (fresh_screen []));
    try reflexivity;
    unfold byte_range, short_range; simpl; lia.
Defined.

(** ** Key names, continued *)

(** X13.  For every entry of the key table whose code is a C [int],
    [Key] of the code is the name of the entry, whatever the
    formatting function: the table is a map literal with no key twice,
    so that no entry hides another.  Two codes may share a name, as 10
    and [KEY_ENTER] do. *)
Theorem Key_on_table_entries :
  forall (keys : KeyCodes) (Sprintf : string -> list value -> string)
         (k : Z) (name : string),
    keyList_compiles keys -> int32_range k ->
    (k, name) ∈ keyList_entries keys ->
    Key keys Sprintf k = name.
Proof.
  intros keys Sprintf k name Hnodup Hrange Hin. unfold Key.
  now rewrite C_int_id, (keyList_lookup keys k name).
Qed.

Lemma Key_on_table_entries_witness :
  Key ncurses_keys Sprintf_verbatim 10 = "enter" /\
  Key ncurses_keys Sprintf_verbatim (KEY_ENTER ncurses_keys) = "enter" /\
  Key ncurses_keys Sprintf_verbatim (KEY_MOUSE ncurses_keys) = "mouse".
Proof.
  assert (Hnodup : keyList_compiles ncurses_keys).
  { unfold keyList_compiles. apply (bool_decide_unpack _). vm_compute. exact I. }
  split; [|split];
    apply (Key_on_table_entries ncurses_keys Sprintf_verbatim);
    try exact Hnodup;
    try (unfold int32_range; simpl; lia);
    unfold keyList_entries;
    repeat first [apply list_elem_of_here | apply list_elem_of_further].
Defined.

(** ** Bounded input, continued *)

Lemma typed_length (text : string) :
  length (typed text) = String.length text.
Proof.
  unfold typed. rewrite length_fmap.
  induction text as [|c text IH]; simpl; congruence.
Qed.

Lemma until_nul_line (line rest : list Z) :
  Forall (fun b => b <> 0) line -> until_nul (line ++ 0 :: rest) = line.
Proof.
  induction 1 as [|b line Hb _ IH]; [reflexivity|].
  simpl. apply Z.eqb_neq in Hb. now rewrite Hb, IH.
Qed.

Lemma string_of_bytes_typed (text : string) :
  string_of_bytes (typed text) = text.
Proof.
  unfold string_of_bytes, typed.
  induction text as [|c text IH]; [reflexivity|].
  cbn [String.list_ascii_of_string fmap list_fmap String.string_of_list_ascii].
  fold (@fmap list _ _ _ (fun c => Z.of_N (Ascii.N_of_ascii c))
          (String.list_ascii_of_string text)).
  fold (@fmap list _ _ _ (fun b => Ascii.ascii_of_N (Z.to_N (b mod 256)))
          ((fun c => Z.of_N (Ascii.N_of_ascii c)) <$>
             String.list_ascii_of_string text)).
  rewrite IH. f_equal.
  pose proof (Ascii.N_ascii_bounded c) as Hc.
  rewrite Z.mod_small by lia.
  now rewrite N2Z.id, Ascii.ascii_N_embedding.
Qed.

(** X14.  When the library stores a line of fewer than [n] characters,
    none of them NUL, followed by the terminating NUL, and does not
    report [ERR], [GetString n] returns the line as a string with no
    error: the line is in the buffer, and nothing is stored past the
    end of it. *)
Theorem GetString_returns_the_line_stored :
  forall term (d : Driver term) (w n : Z) (s s' : term)
         (rc : Z) (text : string),
    1 <= n ->
    wgetnstr d w (C_int n) s = (rc, typed text ++ [0], s') ->
    rc <> ERR d ->
    (String.length text < Z.to_nat n)%nat ->
    Forall (fun b => b <> 0) (typed text) ->
    exists r,
      GetString d w n s = Returns (r, s') /\
      gs_string r = text /\ gs_err r = None /\
      take (String.length text) (gs_cstr r) = typed text /\
      length (gs_cstr r) = Z.to_nat n /\
      gs_past_end r = [].
Proof.
  intros term d w n s s' rc text Hn Hcall Hrc Hshort Hnul.
  pose proof (typed_length text) as Hlen.
  assert (Hstored : (length (typed text ++ [0%Z]) <= Z.to_nat n)%nat)
    by (rewrite length_app; simpl; lia).
  unfold GetString.
  replace (n <? 0) with false by (symmetry; apply Z.ltb_ge; lia).
  destruct (Z.to_nat n) as [|k] eqn:Hk; [lia|].
  cbn [replicate index lookup list_lookup mbind outcome_bind].
  rewrite Hcall. apply Z.eqb_neq in Hrc. rewrite Hrc.
  rewrite (take_ge (typed text ++ [0])) by exact Hstored.
  rewrite (drop_ge (typed text ++ [0])) by exact Hstored.
  eexists. split; [reflexivity|]. cbn [gs_string gs_err gs_cstr gs_past_end].
  split; [|split; [reflexivity | split; [|split; [|reflexivity]]]].
  - unfold GoString. rewrite app_nil_r, <- app_assoc.
    cbn [app]. rewrite until_nul_line by assumption.
    apply string_of_bytes_typed.
  - rewrite <- app_assoc, <- Hlen. apply take_app_length.
  - rewrite !length_app, length_drop. change (0 :: replicate k 0)
      with (replicate (S k) 0). rewrite length_replicate.
    rewrite length_app in Hstored. simpl in *. lia.
Qed.

Lemma GetString_returns_the_line_witness :
  exists r,
    GetString curses 1 5 (Init curses (fresh_screen (typed "abc" ++ [10]))).2 =
      Returns (r, (Init curses (fresh_screen [])).2) /\
    gs_string r = "abc" /\ gs_err r = None /\
    take 3 (gs_cstr r) = [97; 98; 99] /\
    length (gs_cstr r) = 5%nat /\
    gs_past_end r = [].
Proof.
  apply (GetString_returns_the_line_stored screen curses 1 5
           (Init curses (fresh_screen (typed "abc" ++ [10]))).2
           (Init curses (fresh_screen [])).2 0 "abc").
  - lia.
  - reflexivity.
  - simpl. lia.
  - simpl. lia.
  - repeat constructor; discriminate.
Defined.

(** ** Windows within windows *)

(** X15.  [DerivedWindow] makes the very library call [SubWindow]
    makes, [subwin] on the same arguments, and so returns the same
    window on the same terminal: the position it is given is read as
    [subwin] reads it. *)
Theorem DerivedWindow_is_SubWindow :
  forall term (d : Driver term) (w height width y x : Z) (s : term),
    DerivedWindow d w height width y x s = SubWindow d w height width y x s /\
    DerivedWindow d w height width y x s =
      subwin d w (C_int height) (C_int width) (C_int y) (C_int x) s.
Proof. intros. split; reflexivity. Qed.

(** X16.  [GetString n] returns exactly when [n] is 1 or more: with a
    bound of 0 or a negative bound it panics before any library call.
    When it returns, the terminal is as the library's [wgetnstr] left
    it, and an error is returned exactly when [wgetnstr] reported
    [ERR]; the string returned with an error is empty, whatever the
    library stored. *)
Theorem GetString_returns_iff_positive_bound :
  forall term (d : Driver term) (w n : Z) (s : term),
    (returns (GetString d w n s) <-> 1 <= n) /\
    (forall r s', GetString d w n s = Returns (r, s') ->
       s' = (wgetnstr d w (C_int n) s).2 /\
       (is_Some (gs_err r) <-> (wgetnstr d w (C_int n) s).1.1 = ERR d) /\
       (is_Some (gs_err r) -> gs_string r = "")).
Proof.
  intros term d w n s. unfold GetString.
  destruct (n <? 0) eqn:Hneg.
  - apply Z.ltb_lt in Hneg. split.
    + split; [intros Hrun; exfalso; exact (returns_Panics _ Hrun) | lia].
    + intros r s' Hrun. discriminate Hrun.
  - apply Z.ltb_ge in Hneg.
    destruct (Z.to_nat n) as [|k] eqn:Hk;
      cbn [replicate index lookup list_lookup mbind outcome_bind].
    + split.
      * split; [intros Hrun; exfalso; exact (returns_Panics _ Hrun) | lia].
      * intros r s' Hrun. discriminate Hrun.
    + destruct (wgetnstr d w (C_int n) s) as [[rc stored] s1].
      cbn [fst snd].
      destruct (rc =? ERR d) eqn:Hrc.
      * apply Z.eqb_eq in Hrc. split.
        -- split; [lia | intros _; apply returns_Returns].
        -- intros r s' [= <- <-]. cbn. split; [reflexivity|].
           split; [split; eauto | reflexivity].
      * apply Z.eqb_neq in Hrc. split.
        -- split; [lia | intros _; apply returns_Returns].
        -- intros r s' [= <- <-]. cbn. split; [reflexivity|].
           split; [split; [intros [e He]; discriminate | contradiction]|].
           intros [e He]. discriminate.
Qed.

(** ** Results that come in pairs *)

(** X17.  The two results of [NewWindow] agree, and so do those of
    [GetChar]: [NewWindow] returns an error exactly when the window it
    returns is nil, and [GetChar] returns an error exactly when the
    character it returns is the library's [ERR]. *)
Theorem NewWindow_and_GetChar_results_agree :
  forall term (d : Driver term) (h w y x win : Z) (s : term),
    (is_Some (NewWindow d h w y x s).1.2 <-> (NewWindow d h w y x s).1.1 = 0) /\
    (is_Some (GetChar d win s).1.2 <-> (GetChar d win s).1.1 = ERR d).
Proof.
  intros term d h w y x win s. unfold NewWindow, GetChar.
  destruct (newwin d _ _ _ _ s) as [new s1], (wgetch d win s) as [ch s2].
  split.
  - destruct (new =? 0) eqn:Hnil; cbn.
    + apply Z.eqb_eq in Hnil. split; eauto.
    + apply Z.eqb_neq in Hnil. split; [intros [e He]; discriminate | easy].
  - destruct (ch =? ERR d) eqn:Herr; cbn.
    + apply Z.eqb_eq in Herr. split; eauto.
    + apply Z.eqb_neq in Herr. split; [intros [e He]; discriminate | easy].
Qed.
